(** * Stream proxy server (index.js): manifest rewriting and segment cache

    A shallow embedding of the proxy core of [index.js]: the two manifest
    rewriters ([rewriteM3u8ContentDirect], [rewriteM3u8Content]), the
    [/clear-cache] handler and the two proxy handlers
    ([GET /proxy-stream/:url] and [GET /viper-proxy/:url]).

    JavaScript strings are sequences of UTF-16 code units; they are modelled
    as [list N].  The regular expressions of the rewriters are kept as
    syntax and run by a backtracking matcher that follows the ECMAScript
    semantics of the constructs they use. *)

From Stdlib Require Import NArith String Ascii DecimalString.
From stdpp Require Import base option list countable gmap.

Local Open Scope N_scope.

(** ** JavaScript strings *)

(** A string value: its UTF-16 code units. *)
Abbreviation jsstring := (list N).

Module JsString.

(** A string literal of the source, written with ASCII characters. *)
Definition js (s : string) : jsstring := N_of_ascii <$> list_ascii_of_string s.

(** The double quote, which the header values of the handlers contain. *)
Definition dquote : jsstring := [34].

(** [s.startsWith(p)] *)
Fixpoint startsWith (s p : jsstring) {struct p} : bool :=
  match p, s with
  | [], _ => true
  | x :: p', y :: s' => (x =? y) && startsWith s' p'
  | _ :: _, [] => false
  end.

(** [s.endsWith(p)] *)
Definition endsWith (s p : jsstring) : bool := startsWith (rev s) (rev p).

(** [!s] for a string: only the empty string is falsy. *)
Definition falsy (s : jsstring) : bool := match s with [] => true | _ => false end.

(** [s.split(sep)] for a separator of one code unit. *)
Fixpoint split (sep : N) (s : jsstring) : list jsstring :=
  match s with
  | [] => [[]]
  | c :: s' =>
      if c =? sep then [] :: split sep s'
      else match split sep s' with
           | h :: t => (c :: h) :: t
           | [] => [[c]]
           end
  end.

(** [parts.join(sep)] *)
Fixpoint join (sep : jsstring) (parts : list jsstring) : jsstring :=
  match parts with
  | [] => []
  | [x] => x
  | x :: rest => x ++ sep ++ join sep rest
  end.

(** Number-to-string conversion of a non-negative integer, as a template
    literal performs it. *)
Definition of_N (n : N) : jsstring := js (NilEmpty.string_of_uint (N.to_uint n)).

Definition of_nat (n : nat) : jsstring := of_N (N.of_nat n).

End JsString.

Import JsString (js).

(** ** Regular expressions

    The constructs that occur in the two patterns of the source, with the
    ECMAScript semantics of a pattern compiled with the flags [g] and [m]
    and without [s] and [u]. *)

Module RegExp.

(** LineTerminator: LF, CR, LS (U+2028), PS (U+2029). *)
Definition isLineTerminator (c : N) : bool :=
  (c =? 10) || (c =? 13) || (c =? 8232) || (c =? 8233).

Inductive regex : Type :=
| Eps                         (* the empty pattern *)
| Chr (c : N)                 (* a literal code unit *)
| Dot                         (* [.] *)
| Bol                         (* [^] under flag m *)
| Eol                         (* [$] under flag m *)
| Seq (r1 r2 : regex)
| Alt (r1 r2 : regex)         (* [r1|r2] *)
| Star (r : regex)            (* greedy [r*] *)
| Plus (r : regex)            (* greedy [r+] *)
| NegLookahead (r : regex)    (* [(?!r)] *)
| Group (r : regex).          (* [(r)]; the callbacks never read captures *)

(** A literal run of characters. *)
Fixpoint lit (w : jsstring) : regex :=
  match w with
  | [] => Eps
  | c :: w' => Seq (Chr c) (lit w')
  end.

(** A position in the input: the code unit just before it, if any, and the
    input that remains. *)
Definition pos : Type := option N * jsstring.

Definition cont : Type := pos -> option pos.
Definition matcher : Type := pos -> cont -> option pos.

(** RepeatMatcher with min = 0 and max = infinity, greedy.  An iteration
    that consumes nothing is rejected.  Every accepted iteration consumes
    at least one code unit, so [fuel] = the length of the remaining input
    is never exhausted before the input is. *)
Fixpoint repeat (ma : matcher) (fuel : nat) (x : pos) (k : cont) : option pos :=
  match fuel with
  | O => k x
  | S fuel' =>
      match ma x (fun y => if (length y.2 =? length x.2)%nat then None
                           else repeat ma fuel' y k) with
      | Some z => Some z
      | None => k x
      end
  end.

(** The backtracking matcher, in continuation-passing style as in the
    language specification: [run r x k] matches [r] at [x] and hands the
    position after the match to [k]; [None] is failure. *)
Fixpoint run (r : regex) (x : pos) (k : cont) {struct r} : option pos :=
  match r with
  | Eps => k x
  | Chr c =>
      match x.2 with
      | c' :: rest => if c =? c' then k (Some c', rest) else None
      | [] => None
      end
  | Dot =>
      match x.2 with
      | c' :: rest => if isLineTerminator c' then None else k (Some c', rest)
      | [] => None
      end
  | Bol =>
      match x.1 with
      | None => k x
      | Some p => if isLineTerminator p then k x else None
      end
  | Eol =>
      match x.2 with
      | [] => k x
      | c :: _ => if isLineTerminator c then k x else None
      end
  | Seq r1 r2 => run r1 x (fun y => run r2 y k)
  | Alt r1 r2 =>
      match run r1 x k with
      | Some z => Some z
      | None => run r2 x k
      end
  | Star r' => repeat (run r') (length x.2) x k
  | Plus r' => run r' x (fun y => repeat (run r') (length y.2) y k)
  | NegLookahead r' =>
      match run r' x Some with
      | Some _ => None
      | None => k x
      end
  | Group r' => run r' x k
  end.

(** One attempt of the pattern at a position: the position after the
    match. *)
Definition exec (r : regex) (x : pos) : option pos := run r x Some.

(** [s.replace(r, f)] for a pattern with flag [g] and a callback [f] that
    reads only its first argument, the matched substring.  [scan] walks
    the input from a position where the next attempt is due after [skip]
    more code units (those belong to the previous match).  An empty match
    is replaced and the search resumes one code unit further. *)
Fixpoint scan (r : regex) (f : jsstring -> jsstring)
    (prev : option N) (s : jsstring) (skip : nat) {struct s} : jsstring :=
  match skip with
  | S skip' =>
      match s with
      | [] => []
      | c :: s' => scan r f (Some c) s' skip'
      end
  | O =>
      match exec r (prev, s) with
      | Some y =>
          let len := (length s - length y.2)%nat in
          f (take len s) ++
            match s with
            | [] => []
            | c :: s' =>
                (if (len =? 0)%nat then [c] else []) ++
                scan r f (Some c) s' (len - 1)
            end
      | None =>
          match s with
          | [] => []
          | c :: s' => c :: scan r f (Some c) s' 0
          end
      end
  end.

Definition replace (r : regex) (f : jsstring -> jsstring) (s : jsstring) : jsstring :=
  scan r f None s 0.

End RegExp.

Import RegExp.

(** ** The manifest rewriters *)

(** [/(^https:\/\/.*$)/gm] *)
Definition directPattern : regex :=
  Group (Seq Bol (Seq (lit (js "https://")) (Seq (Star Dot) Eol))).

(** Helper function to rewrite m3u8 content to directly use our proxy. *)
Definition rewriteM3u8ContentDirect (content : jsstring) : jsstring :=
  replace directPattern
    (fun match_ =>
       if negb (JsString.startsWith match_ (js "#"))
       then js "/proxy-stream/" ++ match_
       else match_)
    content.

(** ** The platform's URL parser

    [new URL(input)] either throws or yields an object whose components the
    source reads.  The parser belongs to the runtime, not to the
    repository: the rewriter and the handlers below take it as a
    parameter. *)

(** The outcome of an operation that may throw (or of a promise that may
    reject): a value, or the [message] of the error. *)
Inductive completion (A : Type) : Type :=
| Normal (a : A)
| Throw (message : jsstring).
Arguments Normal {A} a.
Arguments Throw {A} message.

Record URL : Type := {
  protocol : jsstring;   (* scheme with its colon *)
  host : jsstring;       (* hostname, and the port when it is not the default *)
  hostname : jsstring;
  pathname : jsstring;
  search : jsstring      (* empty, or the query with its question mark *)
}.

Definition URLParser : Type := jsstring -> completion URL.

(** [/^((?!#).+\.ts|.+\.m3u8|.+\.jpg|.+\.html)$/gm] *)
Definition contextPattern : regex :=
  Seq Bol
    (Seq (Group
            (Alt (Seq (NegLookahead (Chr 35)) (Seq (Plus Dot) (lit (js ".ts"))))
            (Alt (Seq (Plus Dot) (lit (js ".m3u8")))
            (Alt (Seq (Plus Dot) (lit (js ".jpg")))
                 (Seq (Plus Dot) (lit (js ".html")))))))
         Eol).

(** Original helper function to rewrite m3u8 content using URL context. *)
Definition rewriteM3u8Content (new_URL : URLParser)
    (content originalUrl : jsstring) : jsstring :=
  let baseUrl :=
    match new_URL originalUrl with
    | Normal urlObj =>
        let pathParts := JsString.split 47 (pathname urlObj) in
        let pathParts := removelast pathParts in
        let basePath := JsString.join (js "/") pathParts in
        protocol urlObj ++ js "//" ++ host urlObj ++ basePath ++ js "/"
    | Throw _ => []
    end in
  replace contextPattern
    (fun match_ =>
       if JsString.startsWith match_ (js "http") then
         js "/proxy-stream/" ++ match_
       else if JsString.startsWith match_ (js "/") then
         match new_URL originalUrl with
         | Normal urlObj =>
             js "/proxy-stream/" ++ (protocol urlObj ++ js "//" ++ host urlObj ++ match_)
         | Throw _ => match_
         end
       else js "/proxy-stream/" ++ (baseUrl ++ match_))
    content.

(** ** The handlers' environment: cache, upstream, response object *)

Abbreviation Buffer := (list Byte.byte).
Abbreviation Headers := (list (jsstring * jsstring)).

(** The value stored by [tsCache.set]: [{ data, contentType }];
    [contentType] is what [headers.get] answered, a string or [null]. *)
Record CacheEntry : Type := {
  data : Buffer;
  contentType : option jsstring
}.

(** The entries [tsCache] holds when a request is handled.  Expiry (stdTTL
    600, checkperiod 120) happens between the calls of a handler and is left
    to the environment. *)
Abbreviation Cache := (gmap jsstring CacheEntry).

(** What a handler can observe of the upstream response of [fetch]. *)
Record Response : Type := {
  status : N;
  statusText : jsstring;
  header_content_type : option jsstring;  (* [headers.get('content-type')] *)
  text : completion jsstring;             (* awaiting [response.text()] *)
  buffer : completion Buffer              (* awaiting [response.buffer()] *)
}.

(** [response.ok] *)
Definition ok (r : Response) : bool := (200 <=? status r) && (status r <? 300).

(** Bodies given to [res.json]. *)
Inductive JsonBody : Type :=
| ErrorJson (error : jsstring)              (* [{ error }] *)
| SuccessJson (message : jsstring).         (* [{ success: true, message }] *)

(** What was written to the client. *)
Inductive Sent : Type :=
| SentNothing
| SentJson (j : JsonBody)
| SentString (s : jsstring)
| SentBuffer (b : Buffer)
| SentPipe (r : Response).                  (* [response.body.pipe(res)] *)

(** The response object [res]: status code (200 until [res.status] is
    called), the Content-Type given to [res.setHeader], and the body. *)
Record Res : Type := {
  statusCode : N;
  contentTypeHeader : option jsstring;
  sent : Sent
}.

Definition freshRes : Res :=
  {| statusCode := 200; contentTypeHeader := None; sent := SentNothing |}.

(** The operations a handler performs on its environment, indexed by the
    type of their answer. *)
Inductive op : Type -> Type :=
| Fetch (url : jsstring) (headers : Headers) : op (completion Response)
| CacheGet (key : jsstring) : op (option CacheEntry)
| CacheSet (key : jsstring) (value : CacheEntry) : op unit
| CacheKeys : op (list jsstring)
| CacheFlushAll : op unit
| ResStatus (code : N) : op unit
| ResSetContentType (value : jsstring) : op unit
| ResSend (body : Sent) : op unit.

(** A handler: a tree of operations with their continuations. *)
Inductive Prog (A : Type) : Type :=
| Ret (a : A)
| Vis {X : Type} (e : op X) (k : X -> Prog A).
Arguments Ret {A} a.
Arguments Vis {A X} e k.

Fixpoint bind {A B : Type} (p : Prog A) (f : A -> Prog B) : Prog B :=
  match p with
  | Ret a => f a
  | Vis e k => Vis e (fun x => bind (k x) f)
  end.

Definition call {X : Type} (e : op X) : Prog X := Vis e Ret.

Declare Scope prog_scope.
Delimit Scope prog_scope with prog.
Notation "x <- p ;; q" := (bind p (fun x => q))
  (at level 100, p at next level, right associativity) : prog_scope.
Notation "p ;; q" := (bind p (fun _ => q))
  (at level 100, right associativity) : prog_scope.

(** Code inside a [try] block: it ends normally or throws. *)
Definition Try (A : Type) : Type := Prog (completion A).

Definition tbind {A B : Type} (p : Try A) (f : A -> Try B) : Try B :=
  bind p (fun c => match c with
                   | Normal a => f a
                   | Throw m => Ret (Throw m)
                   end).

Definition lift {A : Type} (p : Prog A) : Try A := bind p (fun a => Ret (Normal a)).

(** [await] of a promise that was produced by the environment. *)
Definition await {A : Type} (c : completion A) : Try A := Ret c.

Definition throw {A : Type} (message : jsstring) : Try A := Ret (Throw message).

(** [try { body } catch (error) { handler(error.message) }] *)
Definition try_catch {A : Type} (body : Try A) (handler : jsstring -> Prog A) : Prog A :=
  bind body (fun c => match c with
                      | Normal a => Ret a
                      | Throw m => handler m
                      end).

Declare Scope try_scope.
Delimit Scope try_scope with try.
Notation "x <- p ;; q" := (tbind p (fun x => q))
  (at level 100, p at next level, right associativity) : try_scope.
Notation "p ;; q" := (tbind p (fun _ => q))
  (at level 100, right associativity) : try_scope.

(** *** Running a handler *)

(** The calls a handler made on the cache and on the network, in order. *)
Inductive Call : Type :=
| CallFetch (url : jsstring) (headers : Headers)
| CallGet (key : jsstring)
| CallSet (key : jsstring) (value : CacheEntry)
| CallKeys
| CallFlushAll.

(** The upstream: the outcome of the [n]-th [fetch] of a request, by URL
    and headers. *)
Definition Network : Type := nat -> jsstring -> Headers -> completion Response.

Record World : Type := {
  cache : Cache;
  res : Res;
  calls : list Call    (* most recent last *)
}.

Definition initWorld (c : Cache) : World :=
  {| cache := c; res := freshRes; calls := [] |}.

Definition isFetch (c : Call) : bool :=
  match c with CallFetch _ _ => true | _ => false end.

Definition isSet (c : Call) : bool :=
  match c with CallSet _ _ => true | _ => false end.

Definition fetchCount (l : list Call) : nat := length (List.filter isFetch l).

Definition logged (w : World) (c : Call) (cache' : Cache) (res' : Res) : World :=
  {| cache := cache'; res := res'; calls := calls w ++ [c] |}.

Definition perform (net : Network) {X : Type} (e : op X) (w : World) : X * World :=
  match e in op X return X * World with
  | Fetch url headers =>
      (net (fetchCount (calls w)) url headers,
       logged w (CallFetch url headers) (cache w) (res w))
  | CacheGet key =>
      (cache w !! key, logged w (CallGet key) (cache w) (res w))
  | CacheSet key value =>
      (tt, logged w (CallSet key value) (<[key := value]> (cache w)) (res w))
  | CacheKeys =>
      ((map_to_list (cache w)).*1, logged w CallKeys (cache w) (res w))
  | CacheFlushAll =>
      (tt, logged w CallFlushAll ∅ (res w))
  | ResStatus code =>
      (tt, {| cache := cache w; calls := calls w;
              res := {| statusCode := code;
                        contentTypeHeader := contentTypeHeader (res w);
                        sent := sent (res w) |} |})
  | ResSetContentType value =>
      (tt, {| cache := cache w; calls := calls w;
              res := {| statusCode := statusCode (res w);
                        contentTypeHeader := Some value;
                        sent := sent (res w) |} |})
  | ResSend body =>
      (tt, {| cache := cache w; calls := calls w;
              res := {| statusCode := statusCode (res w);
                        contentTypeHeader := contentTypeHeader (res w);
                        sent := body |} |})
  end.

Fixpoint exec_in {A : Type} (net : Network) (p : Prog A) (w : World) : A * World :=
  match p with
  | Ret a => (a, w)
  | Vis e k => let '(x, w') := perform net e w in exec_in net (k x) w'
  end.

(** One request: the handler runs against the cache as it is and a fresh
    response object. *)
Definition serve (net : Network) (handler : Prog unit) (c : Cache) : World :=
  (exec_in net handler (initWorld c)).2.

(** ** The handlers *)

Open Scope prog_scope.

(** [return res.status(code).json(body)] *)
Definition respondJson (code : N) (body : JsonBody) : Prog unit :=
  call (ResStatus code);; call (ResSend (SentJson body)).

(** [if (contentType) res.setHeader('Content-Type', contentType)]: [null]
    and the empty string are falsy. *)
Definition setContentType (contentType : option jsstring) : Prog unit :=
  match contentType with
  | Some (c :: rest) => call (ResSetContentType (c :: rest))
  | _ => Ret tt
  end.

(** *** POST /clear-cache *)

(** [req.body.token]: absent, a string, or another JSON value (null, a
    boolean, a number, an array, an object). *)
Inductive value : Type :=
| VUndefined
| VString (s : jsstring)
| VOther.

(** [v !== s] where [s] is a string or [undefined] ([None]). *)
Definition strictNotEqual (v : value) (s : option jsstring) : bool :=
  match v, s with
  | VUndefined, None => false
  | VString a, Some b => negb (bool_decide (a = b))
  | _, _ => true
  end.

Definition clear_cache (ADMIN_TOKEN : option jsstring) (token : value) : Prog unit :=
  (* Simple token validation - in production use a more secure method *)
  if strictNotEqual token ADMIN_TOKEN && strictNotEqual token (Some (js "admin-token"))
  then respondJson 403 (ErrorJson (js "Unauthorized"))
  else
    keys <- call CacheKeys;;
    let keysCount := length keys in
    call CacheFlushAll;;
    call (ResSend (SentJson (SuccessJson
      (js "Cache cleared. " ++ JsString.of_nat keysCount ++ js " TS segments removed.")))).

(** *** GET /proxy-stream/:url *)

Definition quoted (s : string) : jsstring :=
  JsString.dquote ++ js s ++ JsString.dquote.

Definition proxyStreamHeaders : Headers :=
  [ (js "accept", js "*/*");
    (js "accept-language", js "en-US,en;q=0.9");
    (js "origin", js "https://embed.su");
    (js "priority", js "u=1, i");
    (js "referer", js "https://embed.su/");
    (js "sec-ch-ua",
      quoted "Chromium" ++ js ";v=" ++ quoted "134" ++ js ", " ++
      quoted "Not:A-Brand" ++ js ";v=" ++ quoted "24" ++ js ", " ++
      quoted "Microsoft Edge" ++ js ";v=" ++ quoted "134");
    (js "sec-ch-ua-mobile", js "?0");
    (js "sec-ch-ua-platform", quoted "Windows");
    (js "sec-fetch-dest", js "empty");
    (js "sec-fetch-mode", js "cors");
    (js "sec-fetch-site", js "cross-site");
    (js "user-agent", js "Mozilla/5.0 (Windows NT 10.0; Win64; x64) AppleWebKit/537.36 (KHTML, like Gecko) Chrome/134.0.0.0 Safari/537.36 Edg/134.0.0.0") ].

(** [throw new Error(`Failed to fetch: ${response.status} ${response.statusText}`)] *)
Definition failedToFetch (response : Response) : jsstring :=
  js "Failed to fetch: " ++ JsString.of_N (status response) ++ js " " ++ statusText response.

(** The [catch] clause of both proxy handlers. *)
Definition proxyError (message : jsstring) : Prog unit :=
  respondJson 500 (ErrorJson (js "Failed to proxy stream: " ++ message)).

Definition proxy_stream (streamUrl : jsstring) : Prog unit :=
  if JsString.falsy streamUrl then
    respondJson 400 (ErrorJson (js "Stream URL is required"))
  else
    try_catch
      ((* Check if we have the TS segment or file in cache *)
       cachedContent <-
         (if JsString.endsWith streamUrl (js ".jpg")
             || JsString.endsWith streamUrl (js ".html")
             || JsString.endsWith streamUrl (js ".ts")
          then lift (call (CacheGet streamUrl))
          else await (Normal None));;
       match cachedContent with
       | Some cachedContent =>
           lift (setContentType (contentType cachedContent));;
           lift (call (ResSend (SentBuffer (data cachedContent))))
       | None =>
           (* Not in cache, fetch from source *)
           response <- call (Fetch streamUrl proxyStreamHeaders);;
           if negb (ok response) then throw (failedToFetch response)
           else
             let contentType := header_content_type response in
             lift (setContentType contentType);;
             (* For m3u8 files we rewrite the content but don't cache it *)
             if JsString.endsWith streamUrl (js "m3u8") then
               data <- await (text response);;
               let rewrittenData := rewriteM3u8ContentDirect data in
               lift (call (ResSend (SentString rewrittenData)))
             (* For TS segment files, jpg, or html files, cache the binary data *)
             else if JsString.endsWith streamUrl (js ".jpg")
                     || JsString.endsWith streamUrl (js ".html")
                     || JsString.endsWith streamUrl (js ".ts") then
               buf <- await (buffer response);;
               lift (call (CacheSet streamUrl {| data := buf; contentType := contentType |}));;
               lift (call (ResSend (SentBuffer buf)))
             (* For other content, we stream directly without caching *)
             else lift (call (ResSend (SentPipe response)))
       end)%try
      proxyError.

(** *** GET /viper-proxy/:url *)

Definition viperProxyHeaders : Headers :=
  [ (js "accept", js "*/*");
    (js "accept-language", js "en-US,en;q=0.9");
    (js "priority", js "u=1, i");
    (js "referer", js "https://embed.su/");
    (js "sec-ch-ua",
      quoted "Chromium" ++ js ";v=" ++ quoted "134" ++ js ", " ++
      quoted "Not:A-Brand" ++ js ";v=" ++ quoted "24" ++ js ", " ++
      quoted "Microsoft Edge" ++ js ";v=" ++ quoted "134");
    (js "sec-ch-ua-arch", quoted "x86");
    (js "sec-ch-ua-bitness", quoted "64");
    (js "sec-ch-ua-full-version", quoted "134.0.3124.72");
    (js "sec-ch-ua-full-version-list",
      quoted "Chromium" ++ js ";v=" ++ quoted "134.0.6998.89" ++ js ", " ++
      quoted "Not:A-Brand" ++ js ";v=" ++ quoted "24.0.0.0" ++ js ", " ++
      quoted "Microsoft Edge" ++ js ";v=" ++ quoted "134.0.3124.72");
    (js "sec-ch-ua-mobile", js "?0");
    (js "sec-ch-ua-model", quoted "");
    (js "sec-ch-ua-platform", quoted "Windows");
    (js "sec-ch-ua-platform-version", quoted "19.0.0");
    (js "sec-fetch-dest", js "empty");
    (js "sec-fetch-mode", js "cors");
    (js "sec-fetch-site", js "same-origin");
    (js "user-agent", js "Mozilla/5.0 (Windows NT 10.0; Win64; x64) AppleWebKit/537.36 (KHTML, like Gecko) Chrome/134.0.0.0 Safari/537.36 Edg/134.0.0.0") ].

(** Transform the URL to the required format.
    From: https://stormyclouds42.xyz/file2/...
    To: https://embed.su/api/proxy/viper/stormyclouds42.xyz/file2/... *)
Definition transformUrl (new_URL : URLParser) (originalUrl : jsstring) : completion jsstring :=
  match new_URL originalUrl with
  | Normal urlObj =>
      Normal (js "https://embed.su/api/proxy/viper/"
                ++ hostname urlObj ++ pathname urlObj ++ search urlObj)
  | Throw message => Throw message
  end.

Definition viper_proxy (new_URL : URLParser) (originalUrl : jsstring) : Prog unit :=
  if JsString.falsy originalUrl then
    respondJson 400 (ErrorJson (js "Stream URL is required"))
  else
    match transformUrl new_URL originalUrl with
    | Throw message =>
        respondJson 400 (ErrorJson (js "Invalid URL format: " ++ message))
    | Normal transformedUrl =>
        try_catch
          ((* Check if we have the TS segment in cache *)
           cachedSegment <-
             (if JsString.endsWith originalUrl (js ".ts")
                 || JsString.endsWith originalUrl (js ".jpg")
                 || JsString.endsWith originalUrl (js ".html")
              then lift (call (CacheGet originalUrl))
              else await (Normal None));;
           match cachedSegment with
           | Some cachedSegment =>
               lift (setContentType (contentType cachedSegment));;
               lift (call (ResSend (SentBuffer (data cachedSegment))))
           | None =>
               (* Not in cache or not a TS file, fetch from source *)
               response <- call (Fetch transformedUrl viperProxyHeaders);;
               if negb (ok response) then throw (failedToFetch response)
               else
                 let contentType := header_content_type response in
                 lift (setContentType contentType);;
                 (* For m3u8 files we rewrite the content but don't cache it *)
                 if JsString.endsWith originalUrl (js "m3u8") then
                   data <- await (text response);;
                   let rewrittenData := rewriteM3u8ContentDirect data in
                   lift (call (ResSend (SentString rewrittenData)))
                 (* For TS segment files, cache the binary data *)
                 else if JsString.endsWith originalUrl (js ".ts")
                         || JsString.endsWith originalUrl (js ".jpg")
                         || JsString.endsWith originalUrl (js ".html") then
                   buf <- await (buffer response);;
                   lift (call (CacheSet originalUrl {| data := buf; contentType := contentType |}));;
                   lift (call (ResSend (SentBuffer buf)))
                 (* For other content, we stream directly without caching *)
                 else lift (call (ResSend (SentPipe response)))
           end)%try
          proxyError
    end.

(** The two proxy routes registered with [app.get]. *)
Inductive route : Type :=
| ProxyStream     (* /proxy-stream/:url *)
| ViperProxy.     (* /viper-proxy/:url *)

Definition proxyHandler (new_URL : URLParser) (r : route) (url : jsstring) : Prog unit :=
  match r with
  | ProxyStream => proxy_stream url
  | ViperProxy => viper_proxy new_URL url
  end.

(** The URL Transform Strategy of a route: the pass-through route fetches the
    client-supplied URL, the host-rewriting route the transformed one. *)
Definition fetchTarget (new_URL : URLParser) (r : route) (url : jsstring)
    : completion jsstring :=
  match r with
  | ProxyStream => Normal url
  | ViperProxy => transformUrl new_URL url
  end.

(** The extensions whose responses are cached. *)
Definition cacheable (url : jsstring) : bool :=
  JsString.endsWith url (js ".ts")
  || JsString.endsWith url (js ".jpg")
  || JsString.endsWith url (js ".html").

(** The value of [process.env.ADMIN_TOKEN], a string or [undefined], as a
    value that a token can be compared with. *)
Definition envValue (o : option jsstring) : value :=
  match o with
  | Some s => VString s
  | None => VUndefined
  end.

(** *** Sample upstreams *)

(** An upstream that answers every [fetch] alike. *)
Definition always (o : completion Response) : Network := fun _ _ _ => o.

Definition okResponse (body : Buffer) (bodyText : jsstring) : Response :=
  {| status := 200; statusText := js "OK";
     header_content_type := Some (js "video/mp2t");
     text := Normal bodyText; buffer := Normal body |}.

Definition notFoundResponse : Response :=
  {| status := 404; statusText := js "Not Found";
     header_content_type := Some (js "text/html");
     text := Normal []; buffer := Normal [] |}.

(** ** A URL parser for concrete requests

    [SimpleURL.parse] follows the platform's parser (the WHATWG URL
    standard) on the inputs it accepts: [http://] or [https://], a host of
    dot-separated labels of lowercase letters and digits whose last label
    starts with a letter (no port, no credentials), an optional path of
    unreserved characters without dot segments, an optional query of
    unreserved characters, no fragment.  On these the standard neither
    normalises nor percent-encodes anything, so the components are the
    substrings of the input.  Every other input is outside its domain and
    makes it throw; among those, the statements below only use an input
    without a scheme, which the platform rejects as well. *)

Module SimpleURL.

Definition isLower (c : N) : bool := (97 <=? c) && (c <=? 122).
Definition isUpper (c : N) : bool := (65 <=? c) && (c <=? 90).
Definition isDigit (c : N) : bool := (48 <=? c) && (c <=? 57).

Definition hostChar (c : N) : bool := isLower c || isDigit c.
Definition pathChar (c : N) : bool :=
  isLower c || isUpper c || isDigit c
  || (c =? 45) || (c =? 46) || (c =? 95).          (* - . _ *)
Definition queryChar (c : N) : bool :=
  pathChar c || (c =? 61) || (c =? 38).            (* = & *)

Fixpoint span (p : N -> bool) (s : jsstring) : jsstring * jsstring :=
  match s with
  | [] => ([], [])
  | c :: s' => if p c then let '(a, b) := span p s' in (c :: a, b) else ([], s)
  end.

Definition validLabel (l : jsstring) : bool :=
  negb (JsString.falsy l) && forallb hostChar l.

Definition validHost (h : jsstring) : bool :=
  let labels := JsString.split 46 h in
  forallb validLabel labels
  && match last labels with
     | Some (c :: _) => isLower c
     | _ => false
     end.

Definition validSegment (seg : jsstring) : bool :=
  forallb pathChar seg
  && negb (bool_decide (seg = js ".")) && negb (bool_decide (seg = js "..")).

Definition validPath (p : jsstring) : bool :=
  match p with
  | [] => true
  | c :: p' => (c =? 47) && forallb validSegment (JsString.split 47 p')
  end.

Definition invalid : completion URL := Throw (js "Invalid URL").

Definition parse : URLParser := fun input =>
  let scheme :=
    if JsString.startsWith input (js "https://") then Some (js "https:", drop 8 input)
    else if JsString.startsWith input (js "http://") then Some (js "http:", drop 7 input)
    else None in
  match scheme with
  | None => invalid
  | Some (proto, rest) =>
      let '(h, rest) := span (fun c => negb ((c =? 47) || (c =? 63) || (c =? 35))) rest in
      let '(p, rest) := span (fun c => negb ((c =? 63) || (c =? 35))) rest in
      let q := match rest with
               | 63 :: q => Some q
               | [] => Some []
               | _ => None
               end in
      match q with
      | Some q =>
          if validHost h && validPath p && forallb queryChar q then
            Normal {| protocol := proto;
                      host := h;
                      hostname := h;
                      pathname := match p with [] => js "/" | _ => p end;
                      search := match q with [] => [] | _ => 63 :: q end |}
          else invalid
      | None => invalid
      end
  end.

End SimpleURL.

(** ** Manifest text as lines

    The lines of a text are its maximal runs of code units that are not line
    terminators; the terminators between them are kept, one by one, so that
    a CR LF pair encloses an empty line. *)

Fixpoint splitLines (s : jsstring) : jsstring * list (N * jsstring) :=
  match s with
  | [] => ([], [])
  | c :: s' =>
      let '(l, ls) := splitLines s' in
      if isLineTerminator c then ([], (c, l) :: ls) else (c :: l, ls)
  end.

Definition joinLines (t : jsstring * list (N * jsstring)) : jsstring :=
  t.1 ++ flat_map (fun '(c, l) => c :: l) t.2.

(** Apply [f] to every line and keep the terminators. *)
Definition mapLines (f : jsstring -> jsstring)
    (t : jsstring * list (N * jsstring)) : jsstring * list (N * jsstring) :=
  (f t.1, (fun '(c, l) => (c, f l)) <$> t.2).

(** The lines alone, in order. *)
Definition linesOf (s : jsstring) : list jsstring :=
  let t := splitLines s in t.1 :: t.2.*2.

(** The first line of a text, and what follows it (empty, or a text that
    begins with a line terminator). *)
Fixpoint firstLine (s : jsstring) : jsstring :=
  match s with
  | [] => []
  | c :: s' => if isLineTerminator c then [] else c :: firstLine s'
  end.

Fixpoint afterLine (s : jsstring) : jsstring :=
  match s with
  | [] => []
  | c :: s' => if isLineTerminator c then c :: s' else afterLine s'
  end.

(** A run of code units without a line terminator, and a text cut into
    such runs by line terminators. *)
Definition noTerminator (l : jsstring) : bool :=
  forallb (fun c => negb (isLineTerminator c)) l.

Definition wfLines (t : jsstring * list (N * jsstring)) : Prop :=
  noTerminator t.1 = true /\
  Forall (fun '(c, l) => isLineTerminator c = true /\ noTerminator l = true) t.2.

(** A position is at the start of a line. *)
Definition lineStart (prev : option N) : bool :=
  match prev with
  | None => true
  | Some p => isLineTerminator p
  end.

(** The code unit before the position reached after reading [w]. *)
Definition prevAfter (prev : option N) (w : jsstring) : option N :=
  match last w with
  | Some c => Some c
  | None => prev
  end.

(** The search of [replace] once the first line has been dealt with: the
    terminator is copied and the search goes on behind it. *)
Definition resume (r : regex) (f : jsstring -> jsstring) (s : jsstring) : jsstring :=
  match afterLine s with
  | [] => []
  | c :: s' => c :: scan r f (Some c) s' 0
  end.

(** The simple per-line function: prefix [/proxy-stream/] to a line that
    begins with the characters [https://], leave any other line unchanged. *)
Definition prefixHttpsLine (line : jsstring) : jsstring :=
  if JsString.startsWith line (js "https://") then js "/proxy-stream/" ++ line
  else line.

Definition rewriteDirectByLine (content : jsstring) : jsstring :=
  joinLines (mapLines prefixHttpsLine (splitLines content)).

(** The direct rewriter without the test on [#] in its callback. *)
Definition rewriteDirectUnguarded (content : jsstring) : jsstring :=
  replace directPattern (fun match_ => js "/proxy-stream/" ++ match_) content.

(** ** The context-aware rewriter, line by line *)

(** A line ends in the extension [ext] and has at least one code unit
    before it. *)
Definition extensionLine (ext line : jsstring) : bool :=
  (length ext <? length line)%nat && JsString.endsWith line ext.

(** The lines the context pattern matches: a line with the extension
    [.ts] that does not begin with [#], or any line with the extension
    [.m3u8], [.jpg] or [.html]. *)
Definition matchesContext (line : jsstring) : bool :=
  (negb (JsString.startsWith line (js "#")) && extensionLine (js ".ts") line)
  || extensionLine (js ".m3u8") line
  || extensionLine (js ".jpg") line
  || extensionLine (js ".html") line.

(** The base URL that [rewriteM3u8Content] computes before it rewrites. *)
Definition baseUrlOf (new_URL : URLParser) (originalUrl : jsstring) : jsstring :=
  match new_URL originalUrl with
  | Normal urlObj =>
      let pathParts := JsString.split 47 (pathname urlObj) in
      let pathParts := removelast pathParts in
      let basePath := JsString.join (js "/") pathParts in
      protocol urlObj ++ js "//" ++ host urlObj ++ basePath ++ js "/"
  | Throw _ => []
  end.

(** The callback that [rewriteM3u8Content] passes to [replace]. *)
Definition contextCallback (new_URL : URLParser) (originalUrl match_ : jsstring) : jsstring :=
  if JsString.startsWith match_ (js "http") then
    js "/proxy-stream/" ++ match_
  else if JsString.startsWith match_ (js "/") then
    match new_URL originalUrl with
    | Normal urlObj =>
        js "/proxy-stream/" ++ (protocol urlObj ++ js "//" ++ host urlObj ++ match_)
    | Throw _ => match_
    end
  else js "/proxy-stream/" ++ (baseUrlOf new_URL originalUrl ++ match_).

(** The per-line function of the context-aware mode. *)
Definition contextLine (new_URL : URLParser) (originalUrl line : jsstring) : jsstring :=
  if matchesContext line then contextCallback new_URL originalUrl line else line.

Definition rewriteContextByLine (new_URL : URLParser)
    (content originalUrl : jsstring) : jsstring :=
  joinLines (mapLines (contextLine new_URL originalUrl) (splitLines content)).

(** The components of a parsed URL that the rewriter copies into a line
    hold no line terminator. *)
Definition urlClean (u : URL) : bool :=
  noTerminator (protocol u) && noTerminator (host u) && noTerminator (pathname u).

(** The line terminators of a text, in order. *)
Definition terminatorsOf (s : jsstring) : list N := (splitLines s).2.*1.

(** The Content-Type that [if (contentType) res.setHeader(...)] leaves on
    the response: the value when it is a non-empty string. *)
Definition truthyString (o : option jsstring) : option jsstring :=
  match o with
  | Some (c :: rest) => Some (c :: rest)
  | _ => None
  end.

(** A path segment: no slash in it. *)
Definition noSlash (l : jsstring) : bool := forallb (fun c => negb (c =? 47)) l.

(** * Properties *)

(** ** Strings *)

Section StringFacts.

Implicit Types (s w l t : jsstring) (c : N).

Lemma startsWith_app w : forall s, JsString.startsWith (w ++ s) w = true.
Proof.
  induction w as [|c w IH]; intros s; simpl; [done|].
  by rewrite N.eqb_refl, IH.
Qed.

Lemma startsWith_inv w : forall s,
  JsString.startsWith s w = true -> s = w ++ drop (length w) s.
Proof.
  induction w as [|c w IH]; intros s; [done|].
  destruct s as [|d s]; simpl; [done|].
  intros [Hc Hs]%andb_prop. apply N.eqb_eq in Hc as ->.
  f_equal. by apply IH.
Qed.

Lemma startsWith_trans s w w' :
  JsString.startsWith s (w ++ w') = true -> JsString.startsWith s w = true.
Proof.
  revert s. induction w as [|c w IH]; intros s; [by destruct s|].
  destruct s as [|d s]; simpl; [done|].
  intros [Hc Hs]%andb_prop. rewrite Hc. simpl. by apply IH.
Qed.

End StringFacts.

(** ** Lines *)

Section LineFacts.

Implicit Types (s w l t : jsstring) (c : N).

Lemma firstLine_afterLine s : firstLine s ++ afterLine s = s.
Proof.
  induction s as [|c s IH]; simpl; [done|].
  destruct (isLineTerminator c); simpl; [done|]. by rewrite IH.
Qed.

Lemma firstLine_no_terminator s :
  forallb (fun c => negb (isLineTerminator c)) (firstLine s) = true.
Proof.
  induction s as [|c s IH]; simpl; [done|].
  destruct (isLineTerminator c) eqn:E; simpl; [done|]. by rewrite E, IH.
Qed.

Lemma afterLine_terminator s c t :
  afterLine s = c :: t -> isLineTerminator c = true.
Proof.
  induction s as [|d s IH]; simpl; [done|].
  destruct (isLineTerminator d) eqn:E; [|done].
  by intros [= <- _].
Qed.

Lemma afterLine_length s : length s = (length (firstLine s) + length (afterLine s))%nat.
Proof. by rewrite <- length_app, firstLine_afterLine. Qed.

Lemma firstLine_of_line l t :
  forallb (fun c => negb (isLineTerminator c)) l = true ->
  firstLine (l ++ t) = l ++ firstLine t /\ afterLine (l ++ t) = afterLine t.
Proof.
  induction l as [|c l IH]; simpl; [done|].
  intros [Hc Hl]%andb_prop. apply negb_true_iff in Hc. rewrite Hc.
  destruct (IH Hl) as [-> ->]. done.
Qed.

Lemma firstLine_afterLine_idem s :
  firstLine (afterLine s) = [] /\ afterLine (afterLine s) = afterLine s.
Proof.
  destruct (afterLine s) as [|c t] eqn:E; [done|].
  apply afterLine_terminator in E. simpl. by rewrite E.
Qed.

Lemma splitLines_unfold s :
  splitLines s =
    (firstLine s,
     match afterLine s with
     | [] => []
     | c :: s' => (c, (splitLines s').1) :: (splitLines s').2
     end).
Proof.
  induction s as [|c s IH]; simpl; [done|].
  destruct (isLineTerminator c); simpl; [by destruct (splitLines s)|].
  rewrite IH. done.
Qed.

(** Splitting into lines loses nothing. *)
Lemma joinLines_splitLines s : joinLines (splitLines s) = s.
Proof.
  induction s as [|c s IH]; simpl; [done|].
  unfold joinLines in *. destruct (splitLines s) as [l ls].
  destruct (isLineTerminator c); simpl in *; by rewrite IH.
Qed.

Lemma prevAfter_cons prev c l : prevAfter prev (c :: l) = prevAfter (Some c) l.
Proof. unfold prevAfter. rewrite last_cons. by destruct (last l). Qed.

End LineFacts.

(** ** The matcher on the direct pattern *)

Section DirectPattern.

Implicit Types (s w l t : jsstring) (c : N) (prev : option N) (k : cont).

(** A literal matches exactly when the input starts with it. *)
Lemma run_lit w : forall prev s k,
  run (lit w) (prev, s) k =
    if JsString.startsWith s w then k (prevAfter prev w, drop (length w) s)
    else None.
Proof.
  induction w as [|c w IH]; intros prev s k; [done|].
  destruct s as [|d s]; [done|].
  cbn [lit run JsString.startsWith snd].
  destruct (c =? d) eqn:E; [|done].
  apply N.eqb_eq in E as <-. rewrite IH, prevAfter_cons. done.
Qed.

(** Greedy [.*] followed by [$] takes the rest of the line. *)
Lemma repeat_dot_eol s : forall fuel prev,
  (length (firstLine s) <= fuel)%nat ->
  repeat (run Dot) fuel (prev, s) (fun y => run Eol y Some)
    = Some (prevAfter prev (firstLine s), afterLine s).
Proof.
  induction s as [|c s IH]; intros fuel prev Hfuel.
  - by destruct fuel.
  - cbn [firstLine afterLine] in *.
    destruct (isLineTerminator c) eqn:E.
    + destruct fuel; cbn [repeat run snd]; by rewrite E.
    + destruct fuel as [|fuel]; [simpl in Hfuel; lia|].
      cbn [repeat run snd]. rewrite E.
      replace (length s =? length (c :: s))%nat with false
        by (symmetry; apply Nat.eqb_neq; simpl; lia).
      rewrite IH by (simpl in Hfuel; lia).
      by rewrite prevAfter_cons.
Qed.

(** Fuel beyond the length of the input changes nothing. *)
Lemma repeat_dot_fuel s : forall fuel prev k,
  (length s <= fuel)%nat ->
  repeat (run Dot) fuel (prev, s) k = repeat (run Dot) (length s) (prev, s) k.
Proof.
  induction s as [|c s IH]; intros fuel prev k Hfuel.
  - by destruct fuel.
  - destruct fuel as [|fuel]; [simpl in Hfuel; lia|].
    cbn [repeat run snd length].
    destruct (isLineTerminator c); [done|].
    replace (length s =? S (length s))%nat with false
      by (symmetry; apply Nat.eqb_neq; lia).
    rewrite IH by (simpl in Hfuel; lia). done.
Qed.

Lemma exec_directPattern prev s :
  exec directPattern (prev, s) =
    if lineStart prev && JsString.startsWith s (js "https://")
    then Some (prevAfter (Some 47) (firstLine (drop 8 s)), afterLine (drop 8 s))
    else None.
Proof.
  unfold exec, directPattern. cbn [run fst].
  destruct prev as [p|]; cbn [lineStart].
  - destruct (isLineTerminator p); [|done].
    rewrite run_lit. destruct (JsString.startsWith s _); [|done].
    cbn [run snd andb]. rewrite repeat_dot_eol; [done|].
    rewrite (afterLine_length (drop _ s)). lia.
  - rewrite run_lit. destruct (JsString.startsWith s _); [|done].
    cbn [run snd andb]. rewrite repeat_dot_eol; [done|].
    rewrite (afterLine_length (drop _ s)). lia.
Qed.

(** A line starts with [https://] exactly when the text does. *)
Lemma startsWith_https_line s :
  JsString.startsWith s (js "https://") = true ->
  firstLine s = js "https://" ++ firstLine (drop 8 s)
  /\ afterLine s = afterLine (drop 8 s).
Proof.
  intros H. apply startsWith_inv in H.
  change (length (js "https://")) with 8%nat in H.
  rewrite H at 1 3. by apply firstLine_of_line.
Qed.

Lemma startsWith_firstLine s :
  JsString.startsWith (firstLine s) (js "https://")
    = JsString.startsWith s (js "https://").
Proof.
  destruct (JsString.startsWith s _) eqn:E.
  - apply startsWith_https_line in E as [-> _]. apply startsWith_app.
  - apply not_true_is_false. intros H. apply startsWith_inv in H.
    rewrite <- (firstLine_afterLine s), H, <- app_assoc, startsWith_app in E.
    done.
Qed.

End DirectPattern.

(** ** The global replacement with the direct pattern *)

Section DirectScan.

Variable cb : jsstring -> jsstring.

Implicit Types (s w l t : jsstring) (c : N) (prev : option N).

Lemma scan_unfold r prev s :
  scan r cb prev s 0 =
    match exec r (prev, s) with
    | Some y =>
        let len := (length s - length y.2)%nat in
        cb (take len s) ++
          match s with
          | [] => []
          | c :: s' =>
              (if (len =? 0)%nat then [c] else []) ++ scan r cb (Some c) s' (len - 1)
          end
    | None =>
        match s with
        | [] => []
        | c :: s' => c :: scan r cb (Some c) s' 0
        end
    end.
Proof. by destruct s. Qed.

(** The code units of a match are passed over. *)
Lemma scan_skip r l : forall prev t,
  scan r cb prev (l ++ t) (length l) = scan r cb (prevAfter prev l) t 0.
Proof.
  induction l as [|c l IH]; intros prev t; [done|].
  cbn [app length scan]. by rewrite IH, prevAfter_cons.
Qed.

(** Inside a line the pattern cannot match: the line is copied. *)
Lemma scan_copy s : forall p,
  isLineTerminator p = false ->
  scan directPattern cb (Some p) s 0 = firstLine s ++ resume directPattern cb s.
Proof.
  induction s as [|c s IH]; intros p Hp.
  - rewrite scan_unfold, exec_directPattern. cbn [lineStart]. by rewrite Hp.
  - rewrite scan_unfold, exec_directPattern. cbn [lineStart]. rewrite Hp.
    cbn [andb firstLine]. unfold resume. cbn [afterLine].
    destruct (isLineTerminator c) eqn:E; [done|].
    rewrite (IH c E). done.
Qed.

Lemma prevAfter_no_terminator l : forall c,
  isLineTerminator c = false ->
  forallb (fun c => negb (isLineTerminator c)) l = true ->
  exists x, prevAfter (Some c) l = Some x /\ isLineTerminator x = false.
Proof.
  induction l as [|d l IH]; intros c Hc Hl; [by exists c|].
  simpl in Hl. apply andb_prop in Hl as [Hd Hl]. apply negb_true_iff in Hd.
  rewrite prevAfter_cons. by apply IH.
Qed.

(** At the start of a line the callback receives the whole line when it
    begins with [https://]; any other line is copied. *)
Lemma scan_line_start prev s :
  lineStart prev = true ->
  scan directPattern cb prev s 0 =
    (if JsString.startsWith s (js "https://") then cb (firstLine s) else firstLine s)
    ++ resume directPattern cb s.
Proof.
  intros Hprev. rewrite scan_unfold, exec_directPattern, Hprev. cbn [andb].
  destruct (JsString.startsWith s _) eqn:Hs.
  - destruct (startsWith_https_line s Hs) as [Hfirst Hafter].
    cbn [snd]. rewrite <- Hafter.
    assert (Hlen : (length s - length (afterLine s))%nat = length (firstLine s))
      by (rewrite (afterLine_length s); lia).
    cbv zeta. rewrite Hlen.
    assert (Htake : take (length (firstLine s)) s = firstLine s).
    { rewrite <- (firstLine_afterLine s) at 2. by rewrite take_app_length. }
    rewrite Htake. f_equal.
    set (rest := resume directPattern cb s).
    pose proof (firstLine_no_terminator s) as Hno.
    pose proof (firstLine_afterLine s) as Hsplit.
    destruct (firstLine s) as [|c l] eqn:Hl; [done|].
    rewrite <- Hsplit. cbn [app length Nat.eqb Nat.sub].
    rewrite Nat.sub_0_r, scan_skip.
    simpl in Hno. apply andb_prop in Hno as [Hc Hno]. apply negb_true_iff in Hc.
    destruct (prevAfter_no_terminator l c Hc Hno) as (x & -> & Hx).
    rewrite (scan_copy _ x Hx).
    destruct (firstLine_afterLine_idem s) as [-> Hidem].
    unfold rest, resume. by rewrite Hidem.
  - destruct s as [|c s]; [done|].
    cbn [firstLine]. unfold resume. cbn [afterLine].
    destruct (isLineTerminator c) eqn:E; [done|].
    rewrite (scan_copy s c E). done.
Qed.

(** The replacement, line by line. *)
Lemma scan_by_line s : forall prev,
  lineStart prev = true ->
  scan directPattern cb prev s 0 =
    joinLines (mapLines
                 (fun l => if JsString.startsWith l (js "https://") then cb l else l)
                 (splitLines s)).
Proof.
  induction s as [s IH] using (induction_ltof1 _ (@length N)); unfold ltof in IH.
  intros prev Hprev.
  rewrite (scan_line_start prev s Hprev), splitLines_unfold.
  unfold joinLines, mapLines, resume. cbn [fst snd].
  rewrite startsWith_firstLine. f_equal.
  pose proof (afterLine_length s) as Hlen.
  destruct (afterLine s) as [|c s'] eqn:E; [done|].
  apply afterLine_terminator in E.
  rewrite (IH s' ltac:(simpl in Hlen; lia) (Some c) E).
  cbn [fmap list_fmap flat_map]. unfold joinLines, mapLines. done.
Qed.

End DirectScan.

(** ** The direct rewriter, line by line *)

Section DirectByLine.

Implicit Types (s w l t : jsstring) (c : N).

Lemma startsWith_https_not_comment l :
  JsString.startsWith l (js "https://") = true ->
  JsString.startsWith l (js "#") = false.
Proof.
  destruct l as [|c l]; [done|]. cbn [JsString.startsWith js fmap list_fmap].
  change (js "https://") with (104 :: js "ttps://"). cbn [JsString.startsWith].
  intros [Hc _]%andb_prop. by apply N.eqb_eq in Hc as <-.
Qed.

Lemma rewriteDirect_by_line content :
  rewriteM3u8ContentDirect content = rewriteDirectByLine content.
Proof.
  unfold rewriteM3u8ContentDirect, replace, rewriteDirectByLine.
  rewrite scan_by_line by done. f_equal.
  unfold mapLines. f_equal.
  - unfold prefixHttpsLine.
    destruct (JsString.startsWith _ (js "https://")) eqn:E; [|done].
    by rewrite (startsWith_https_not_comment _ E).
  - apply list_fmap_ext. intros _ [c l] _. f_equal. unfold prefixHttpsLine.
    destruct (JsString.startsWith _ (js "https://")) eqn:E; [|done].
    by rewrite (startsWith_https_not_comment _ E).
Qed.

Lemma rewriteDirectUnguarded_by_line content :
  rewriteDirectUnguarded content = rewriteDirectByLine content.
Proof.
  unfold rewriteDirectUnguarded, replace, rewriteDirectByLine.
  by rewrite scan_by_line.
Qed.

Lemma splitLines_wf s : wfLines (splitLines s).
Proof.
  induction s as [|c s [IH1 IH2]]; [by split|].
  simpl. destruct (splitLines s) as [l ls].
  destruct (isLineTerminator c) eqn:E; split; simpl in *; try done.
  - by constructor.
  - unfold noTerminator in *. simpl. by rewrite E, IH1.
Qed.

Lemma splitLines_app_line l r :
  noTerminator l = true ->
  splitLines (l ++ r) = (l ++ (splitLines r).1, (splitLines r).2).
Proof.
  induction l as [|c l IH]; intros Hl; [simpl; by destruct (splitLines r)|].
  unfold noTerminator in *. simpl in Hl.
  apply andb_prop in Hl as [Hc Hl]. apply negb_true_iff in Hc.
  simpl. rewrite (IH Hl), Hc. done.
Qed.

Lemma splitLines_joinLines ts : wfLines ts -> splitLines (joinLines ts) = ts.
Proof.
  destruct ts as [l ls]. revert l.
  induction ls as [|[c l'] ls IH]; intros l [Hl Hls]; unfold joinLines in *; simpl in *.
  - by rewrite splitLines_app_line, app_nil_r.
  - apply Forall_cons in Hls as [[Hc Hl'] Hls].
    rewrite splitLines_app_line by done. simpl.
    rewrite (IH l') by done. rewrite Hc. simpl. by rewrite app_nil_r.
Qed.

Lemma prefixHttpsLine_noTerminator l :
  noTerminator l = true -> noTerminator (prefixHttpsLine l) = true.
Proof.
  unfold prefixHttpsLine. destruct (JsString.startsWith l _); [|done].
  intros H. unfold noTerminator in *. by rewrite forallb_app, H.
Qed.

Lemma mapLines_wf f ts :
  (forall l, noTerminator l = true -> noTerminator (f l) = true) ->
  wfLines ts -> wfLines (mapLines f ts).
Proof.
  intros Hf [H1 H2]. split; simpl; [by apply Hf|].
  apply Forall_fmap. eapply Forall_impl; [exact H2|].
  intros [c l] [Hc Hl]. simpl. split; [done|by apply Hf].
Qed.

(** The lines of the rewritten text are the rewritten lines. *)
Lemma linesOf_rewriteDirect content :
  linesOf (rewriteM3u8ContentDirect content) = prefixHttpsLine <$> linesOf content.
Proof.
  rewrite rewriteDirect_by_line. unfold rewriteDirectByLine, linesOf.
  rewrite splitLines_joinLines
    by (apply mapLines_wf; [apply prefixHttpsLine_noTerminator|apply splitLines_wf]).
  unfold mapLines. cbn [fst snd fmap list_fmap]. f_equal.
  rewrite <- !list_fmap_compose. by apply list_fmap_ext; intros _ [c l] _.
Qed.

End DirectByLine.

(** ** Claims on the manifest rewriters *)

(** C10. The direct-mode rewriter is extensionally equal to the simple
    per-line function that prefixes [/proxy-stream/] to exactly the lines
    that begin with [https://] and leaves every other line unchanged (lines
    are delimited by the line terminators of the pattern's multiline mode,
    and cutting a text into lines loses nothing).  A line with any other
    scheme, such as [http://], passes through unmodified.  The test on [#]
    in the callback is unreachable: every substring handed to the callback
    begins with [https://], so the rewriter equals the one without the
    test. *)
Theorem direct_rewriter_is_https_prefix_per_line :
  (forall content, rewriteM3u8ContentDirect content = rewriteDirectByLine content)
  /\ (forall s, joinLines (splitLines s) = s)
  /\ (forall line,
        prefixHttpsLine line =
          if JsString.startsWith line (js "https://")
          then js "/proxy-stream/" ++ line else line)
  /\ rewriteM3u8ContentDirect (js "http://cdn.example/a.ts") = js "http://cdn.example/a.ts"
  /\ (forall prev s y,
        exec directPattern (prev, s) = Some y ->
        JsString.startsWith (take (length s - length y.2) s) (js "https://") = true
        /\ JsString.startsWith (take (length s - length y.2) s) (js "#") = false)
  /\ (forall content, rewriteM3u8ContentDirect content = rewriteDirectUnguarded content).
Proof.
  split; [exact rewriteDirect_by_line|].
  split; [exact joinLines_splitLines|].
  split; [done|].
  split; [by vm_compute|].
  split.
  - intros prev s y. rewrite exec_directPattern.
    destruct (lineStart prev); [|done]. cbn [andb].
    destruct (JsString.startsWith s _) eqn:Hs; [|done].
    intros [= <-]. cbn [snd].
    destruct (startsWith_https_line s Hs) as [_ <-].
    replace (length s - length (afterLine s))%nat with (length (firstLine s))
      by (rewrite (afterLine_length s); lia).
    rewrite <- (firstLine_afterLine s) at 2 4. rewrite take_app_length.
    rewrite startsWith_firstLine. split; [done|].
    apply startsWith_https_not_comment. by rewrite startsWith_firstLine.
  - intros content.
    by rewrite rewriteDirect_by_line, rewriteDirectUnguarded_by_line.
Qed.

Lemma direct_rewriter_is_https_prefix_per_line_witness :
  JsString.startsWith
    (take (length (js "https://a/b") - length ([] : jsstring)) (js "https://a/b"))
    (js "#") = false.
Proof.
  refine (proj2 (proj1 (proj2 (proj2 (proj2 (proj2
    direct_rewriter_is_https_prefix_per_line)))) None (js "https://a/b") (Some 98, []) _)).
  vm_compute. reflexivity.
Defined.

(** C4 (as stated, refuted).  A line that is a bare absolute URL with the
    scheme [http] and is not a comment is not replaced: the text comes out
    as it went in. *)
Lemma direct_rewriter_keeps_http_line :
  JsString.startsWith (js "http://cdn.example/a.ts") (js "http://") = true
  /\ JsString.startsWith (js "http://cdn.example/a.ts") (js "#") = false
  /\ rewriteM3u8ContentDirect (js "http://cdn.example/a.ts") = js "http://cdn.example/a.ts"
  /\ rewriteM3u8ContentDirect (js "http://cdn.example/a.ts")
       <> js "/proxy-stream/http://cdn.example/a.ts".
Proof. by vm_compute. Qed.

(** C4 (amended).  In direct mode every line of the manifest that begins
    with [https://] is replaced by [/proxy-stream/] followed by the whole
    original line, and every other line (a line with any other scheme, a
    directive, a comment, an empty line) is left as it is; the manifest of
    the scenario is rewritten as the scenario says. *)
Theorem direct_rewriter_prefixes_https_lines :
  (forall content i line,
     linesOf content !! i = Some line ->
     JsString.startsWith line (js "https://") = true ->
     linesOf (rewriteM3u8ContentDirect content) !! i = Some (js "/proxy-stream/" ++ line))
  /\ (forall content i line,
        linesOf content !! i = Some line ->
        JsString.startsWith line (js "https://") = false ->
        linesOf (rewriteM3u8ContentDirect content) !! i = Some line)
  /\ rewriteM3u8ContentDirect
       (js "#EXTM3U" ++ [10] ++ js "https://cdn.example/a.ts" ++ [10] ++ js "#EXT-X-ENDLIST")
     = js "#EXTM3U" ++ [10] ++ js "/proxy-stream/https://cdn.example/a.ts" ++ [10]
         ++ js "#EXT-X-ENDLIST".
Proof.
  split; [|split; [|by vm_compute]].
  - intros content i line Hi Hline.
    rewrite linesOf_rewriteDirect, list_lookup_fmap, Hi. simpl.
    unfold prefixHttpsLine. by rewrite Hline.
  - intros content i line Hi Hline.
    rewrite linesOf_rewriteDirect, list_lookup_fmap, Hi.
    cbn [fmap option_fmap option_map]. unfold prefixHttpsLine. by rewrite Hline.
Qed.

Lemma direct_rewriter_prefixes_https_lines_witness :
  linesOf (rewriteM3u8ContentDirect
             (js "http://cdn.example/b.ts" ++ [13; 10] ++ js "https://cdn.example/a.ts")) !! 2%nat
  = Some (js "/proxy-stream/" ++ js "https://cdn.example/a.ts")
  /\ linesOf (rewriteM3u8ContentDirect
                (js "http://cdn.example/b.ts" ++ [13; 10] ++ js "https://cdn.example/a.ts")) !! 0%nat
     = Some (js "http://cdn.example/b.ts").
Proof.
  split.
  - apply (proj1 direct_rewriter_prefixes_https_lines
             (js "http://cdn.example/b.ts" ++ [13; 10] ++ js "https://cdn.example/a.ts") 2%nat
             (js "https://cdn.example/a.ts")).
    + vm_compute. reflexivity.
    + vm_compute. reflexivity.
  - apply (proj1 (proj2 direct_rewriter_prefixes_https_lines)
             (js "http://cdn.example/b.ts" ++ [13; 10] ++ js "https://cdn.example/a.ts") 0%nat
             (js "http://cdn.example/b.ts")).
    + vm_compute. reflexivity.
    + vm_compute. reflexivity.
Defined.

(** Lines that begin with [#], and empty lines, come out of the direct
    rewriter as they went in. *)
Lemma direct_rewriter_keeps_comment_lines content i line :
  linesOf content !! i = Some line ->
  JsString.startsWith line (js "#") = true \/ line = [] ->
  linesOf (rewriteM3u8ContentDirect content) !! i = Some line.
Proof.
  intros Hi Hline.
  rewrite linesOf_rewriteDirect, list_lookup_fmap, Hi. simpl. f_equal.
  unfold prefixHttpsLine.
  destruct (JsString.startsWith line (js "https://")) eqn:E; [|done].
  apply startsWith_https_not_comment in E as E'.
  destruct Hline as [H| ->]; [congruence|done].
Qed.

(** C2.  In context-aware mode a line that begins with [#] and ends in
    [.m3u8] is matched by the second alternative of the pattern, which the
    lookahead [(?!#)] does not guard, and is replaced; the same line ending
    in [.ts] is kept, and so is the line in direct mode. *)
Theorem contextual_rewriter_changes_comment_line :
  rewriteM3u8Content SimpleURL.parse
    (js "#EXTM3U" ++ [10] ++ js "# see backup.m3u8")
    (js "https://cdn.example/a/b/c.m3u8")
  = js "#EXTM3U" ++ [10] ++ js "/proxy-stream/https://cdn.example/a/b/# see backup.m3u8"
  /\ rewriteM3u8Content SimpleURL.parse
       (js "#EXTM3U" ++ [10] ++ js "# see backup.ts")
       (js "https://cdn.example/a/b/c.m3u8")
     = js "#EXTM3U" ++ [10] ++ js "# see backup.ts"
  /\ rewriteM3u8ContentDirect (js "#EXTM3U" ++ [10] ++ js "# see backup.m3u8")
     = js "#EXTM3U" ++ [10] ++ js "# see backup.m3u8".
Proof. by vm_compute. Qed.

(** C6.  When the original manifest URL does not parse, a root-relative
    line is emitted as it is, but a relative line, which needs the base
    directory of that URL, is still replaced, with an empty base. *)
Theorem contextual_rewriter_rewrites_relative_line_without_base :
  forall new_URL originalUrl message,
    new_URL originalUrl = Throw message ->
    rewriteM3u8Content new_URL (js "/abs/seg.ts" ++ [10] ++ js "seg.ts") originalUrl
    = js "/abs/seg.ts" ++ [10] ++ js "/proxy-stream/seg.ts".
Proof.
  intros new_URL originalUrl message H.
  unfold rewriteM3u8Content. rewrite H. by vm_compute.
Qed.

Lemma contextual_rewriter_rewrites_relative_line_without_base_witness :
  rewriteM3u8Content SimpleURL.parse (js "/abs/seg.ts" ++ [10] ++ js "seg.ts") (js "not a url")
  = js "/abs/seg.ts" ++ [10] ++ js "/proxy-stream/seg.ts".
Proof.
  apply (contextual_rewriter_rewrites_relative_line_without_base
           SimpleURL.parse (js "not a url") (js "Invalid URL")).
  vm_compute. reflexivity.
Defined.

(** ** The handlers *)

(** Symbolic execution of a handler: unfold the program and the
    interpreter, and split on whatever the environment decides. *)
Ltac unfold_handler :=
  unfold serve, proxyHandler, proxy_stream, viper_proxy, clear_cache, try_catch,
    tbind, lift, call, await, throw, respondJson, proxyError, setContentType,
    initWorld, freshRes, logged in *;
  cbn [exec_in perform bind cache res calls statusCode contentTypeHeader sent
       fst snd fetchCount List.filter isFetch isSet length app data contentType
       forallb negb andb] in *.

Ltac run_handler :=
  repeat (
    progress unfold_handler ||
    match goal with
    | |- context [match ?x with _ => _ end] => destruct x eqn:?
    end).

Ltac finish_handler :=
  cbn [In] in *;
  repeat match goal with
    | H : negb _ = false |- _ => apply negb_false_iff in H
    | H : negb _ = true |- _ => apply negb_true_iff in H
    end;
  intuition (simplify_eq; try congruence).

Section Suffixes.

Implicit Types (url : jsstring).

Lemma endsWith_manifest url :
  JsString.endsWith url (js ".m3u8") = true ->
  JsString.endsWith url (js "m3u8") = true
  /\ JsString.endsWith url (js ".ts") = false
  /\ JsString.endsWith url (js ".jpg") = false
  /\ JsString.endsWith url (js ".html") = false.
Proof.
  unfold JsString.endsWith. intros H. apply startsWith_inv in H.
  rewrite H. by vm_compute.
Qed.

Lemma cacheable_stream_order url :
  JsString.endsWith url (js ".jpg") || JsString.endsWith url (js ".html")
    || JsString.endsWith url (js ".ts") = cacheable url.
Proof. unfold cacheable. by repeat destruct (JsString.endsWith url _). Qed.

Lemma cacheable_not_empty url : cacheable url = true -> JsString.falsy url = false.
Proof. by destruct url. Qed.

Lemma ok_false (r : Response) :
  ~ (200 <= status r < 300) -> ok r = false.
Proof.
  intros H. unfold ok. apply andb_false_iff.
  destruct (200 <=? status r) eqn:E1; [right|by left].
  apply N.ltb_ge. apply N.leb_le in E1. lia.
Qed.

End Suffixes.

(** ** Claims on the proxy handlers *)

(** C8. When the upstream fetch of a request (on either route) answers with
    a status outside 200..299, the response is a 500 whose error message is
    [Failed to proxy stream: Failed to fetch: ] followed by the status code
    in decimal, a space and the status text; the cache is left as it was,
    no [set] is performed, and the request performed exactly one fetch. *)
Theorem failed_fetch_gives_500_and_leaves_cache :
  forall (new_URL : URLParser) (net : Network) (rt : route) (c : Cache)
         (url u : jsstring) (h : Headers) (r : Response),
    let w := serve net (proxyHandler new_URL rt url) c in
    In (CallFetch u h) (calls w) ->
    net 0%nat u h = Normal r ->
    ~ (200 <= status r < 300) ->
    statusCode (res w) = 500
    /\ sent (res w) =
         SentJson (ErrorJson (js "Failed to proxy stream: " ++ js "Failed to fetch: "
                                ++ JsString.of_N (status r) ++ js " " ++ statusText r))
    /\ cache w = c
    /\ forallb (fun call => negb (isSet call)) (calls w) = true
    /\ fetchCount (calls w) = 1%nat.
Proof.
  intros new_URL net rt c url u h r w Hin Hnet Hstatus. subst w.
  apply ok_false in Hstatus. fold (failedToFetch r).
  destruct rt; run_handler; finish_handler.
Qed.

Lemma failed_fetch_gives_500_and_leaves_cache_witness :
  let w := serve (always (Normal notFoundResponse))
             (proxyHandler SimpleURL.parse ViperProxy (js "https://cdn.example/seg.ts")) ∅ in
  statusCode (res w) = 500
  /\ sent (res w) =
       SentJson (ErrorJson (js "Failed to proxy stream: " ++ js "Failed to fetch: "
                              ++ JsString.of_N 404 ++ js " " ++ js "Not Found"))
  /\ cache w = ∅
  /\ forallb (fun call => negb (isSet call)) (calls w) = true
  /\ fetchCount (calls w) = 1%nat.
Proof.
  apply (failed_fetch_gives_500_and_leaves_cache SimpleURL.parse
           (always (Normal notFoundResponse)) ViperProxy ∅
           (js "https://cdn.example/seg.ts")
           (js "https://embed.su/api/proxy/viper/cdn.example/seg.ts")
           viperProxyHeaders notFoundResponse).
  - vm_compute. right. left. reflexivity.
  - reflexivity.
  - vm_compute. intros [_ H]. discriminate H.
Defined.

(** C9. On either route a request for a manifest (a URL ending in [.m3u8])
    never touches the cache: it performs no [get] and no [set] and leaves
    the cache as it was, and when the fetch succeeds and the body is read,
    the text sent is the direct-mode rewriting of that body.  Whatever the
    URL, a [set] is only performed under a URL that ends in [.ts], [.jpg]
    or [.html]. *)
Theorem manifest_is_never_cached :
  forall (new_URL : URLParser) (net : Network) (rt : route) (c : Cache) (url : jsstring),
    let w := serve net (proxyHandler new_URL rt url) c in
    (JsString.endsWith url (js ".m3u8") = true ->
       cache w = c
       /\ forallb isFetch (calls w) = true
       /\ forall u h r body,
            In (CallFetch u h) (calls w) ->
            net 0%nat u h = Normal r -> ok r = true -> text r = Normal body ->
            statusCode (res w) = 200
            /\ sent (res w) = SentString (rewriteM3u8ContentDirect body))
    /\ (forall key entry,
          In (CallSet key entry) (calls w) ->
          key = url
          /\ (JsString.endsWith url (js ".ts") = true
              \/ JsString.endsWith url (js ".jpg") = true
              \/ JsString.endsWith url (js ".html") = true)).
Proof.
  intros new_URL net rt c url w. subst w. split.
  - intros Hm. destruct (endsWith_manifest url Hm) as (Hm' & Hts & Hjpg & Hhtml).
    destruct rt; unfold_handler; rewrite ?Hm', ?Hts, ?Hjpg, ?Hhtml; cbn [orb];
      run_handler; finish_handler.
  - intros key entry.
    destruct rt; run_handler; intros Hin; cbn [In] in Hin;
      repeat match goal with
        | H : context [_ || _ = true] |- _ => rewrite orb_true_iff in H
        end;
      intuition (simplify_eq; try congruence).
Qed.

Lemma manifest_is_never_cached_witness :
  let w := serve (always (Normal (okResponse [] (js "https://cdn.example/a.ts"))))
             (proxyHandler SimpleURL.parse ProxyStream (js "https://cdn.example/i.m3u8")) ∅ in
  cache w = ∅ /\ forallb isFetch (calls w) = true
  /\ sent (res w) = SentString (js "/proxy-stream/https://cdn.example/a.ts").
Proof.
  pose proof (proj1 (manifest_is_never_cached SimpleURL.parse
                (always (Normal (okResponse [] (js "https://cdn.example/a.ts"))))
                ProxyStream ∅ (js "https://cdn.example/i.m3u8"))
              ltac:(vm_compute; reflexivity)) as (Hc & Hf & Hs).
  split; [exact Hc|]. split; [exact Hf|].
  refine (proj2 (Hs (js "https://cdn.example/i.m3u8") proxyStreamHeaders
                   (okResponse [] (js "https://cdn.example/a.ts"))
                   (js "https://cdn.example/a.ts") _ _ _ _)).
  - vm_compute. left. reflexivity.
  - reflexivity.
  - reflexivity.
  - reflexivity.
Defined.

(** C1 (as stated, refuted).  On the host-rewriting route the segment is
    fetched from the transformed URL but looked up and stored under the
    client-supplied URL; nothing is stored under the URL that was fetched.
    A later request on the pass-through route for that very upstream URL
    misses the entry, fetches again and stores a second entry. *)
Lemma viper_cache_key_is_not_the_fetched_url :
  let original := js "https://cdn.example/seg.ts" in
  let upstream := js "https://embed.su/api/proxy/viper/cdn.example/seg.ts" in
  let entry := {| data := [Byte.x47]; contentType := Some (js "video/mp2t") |} in
  let net := always (Normal (okResponse [Byte.x47] [])) in
  let w := serve net (viper_proxy SimpleURL.parse original) ∅ in
  let w' := serve net (proxy_stream upstream) (cache w) in
  calls w = [CallGet original; CallFetch upstream viperProxyHeaders; CallSet original entry]
  /\ original <> upstream
  /\ cache w !! upstream = None
  /\ cache w !! original = Some entry
  /\ calls w' = [CallGet upstream; CallFetch upstream proxyStreamHeaders; CallSet upstream entry]
  /\ size (cache w') = 2%nat.
Proof. by vm_compute. Qed.

(** C1 (amended).  On either route every cache lookup and every cache store
    of a request uses the client-supplied URL as its key, while the fetch
    goes to the route's fetch target: the same URL on the pass-through
    route, the transformed URL on the host-rewriting route.  A request
    changes the cache at most by one entry under the client-supplied URL,
    and a cacheable URL with an entry under it is served from that entry
    without a fetch. *)
Theorem cache_key_is_client_supplied_url :
  forall (new_URL : URLParser) (net : Network) (rt : route) (c : Cache) (url : jsstring),
    let w := serve net (proxyHandler new_URL rt url) c in
    Forall (fun call =>
              match call with
              | CallGet key => key = url
              | CallSet key _ => key = url
              | CallFetch u _ => fetchTarget new_URL rt url = Normal u
              | CallKeys | CallFlushAll => False
              end) (calls w)
    /\ (cache w = c \/ exists entry, cache w = <[url := entry]> c)
    /\ (forall entry target,
          fetchTarget new_URL rt url = Normal target ->
          cacheable url = true ->
          c !! url = Some entry ->
          calls w = [CallGet url]
          /\ sent (res w) = SentBuffer (data entry)
          /\ cache w = c).
Proof.
  intros new_URL net rt c url w. subst w. split; [|split].
  - destruct rt; cbn [fetchTarget]; run_handler; repeat constructor; done.
  - destruct rt; run_handler; eauto.
  - intros entry target Htarget Hc Hentry.
    pose proof (cacheable_not_empty url Hc) as Hne.
    destruct rt; cbn [fetchTarget] in Htarget; unfold_handler.
    + rewrite Hne, cacheable_stream_order, Hc. unfold_handler. rewrite Hentry.
      run_handler; done.
    + rewrite Hne, Htarget. fold (cacheable url). rewrite Hc. unfold_handler.
      rewrite Hentry. run_handler; done.
Qed.

Lemma cache_key_is_client_supplied_url_witness :
  let url := js "https://cdn.example/seg.ts" in
  let entry := {| data := [Byte.x47]; contentType := None |} in
  let w := serve (always (Throw [])) (proxyHandler SimpleURL.parse ViperProxy url)
             {[ url := entry ]} in
  calls w = [CallGet url] /\ sent (res w) = SentBuffer [Byte.x47]
  /\ cache w = {[ url := entry ]}.
Proof.
  apply (proj2 (proj2 (cache_key_is_client_supplied_url SimpleURL.parse (always (Throw []))
                  ViperProxy {[ js "https://cdn.example/seg.ts" :=
                                  {| data := [Byte.x47]; contentType := None |} ]}
                  (js "https://cdn.example/seg.ts")))
           {| data := [Byte.x47]; contentType := None |}
           (js "https://embed.su/api/proxy/viper/cdn.example/seg.ts")).
  - vm_compute. reflexivity.
  - vm_compute. reflexivity.
  - vm_compute. reflexivity.
Defined.

(** C7. For every client-supplied URL that the host-rewriting route accepts
    (it is not empty and parses), the fetch target is
    [https://embed.su/api/proxy/viper/] followed by the URL's host name, its
    path and its query; this is the URL of every fetch of the request, and a
    request that is not served from the cache does fetch it.  The URL of
    the scenario gives the target of the scenario. *)
Theorem viper_fetch_target :
  (forall (new_URL : URLParser) (originalUrl : jsstring) (urlObj : URL),
     new_URL originalUrl = Normal urlObj ->
     JsString.falsy originalUrl = false ->
     let target := js "https://embed.su/api/proxy/viper/"
                     ++ hostname urlObj ++ pathname urlObj ++ search urlObj in
     transformUrl new_URL originalUrl = Normal target
     /\ forall (net : Network) (c : Cache),
          let w := serve net (viper_proxy new_URL originalUrl) c in
          (forall u h, In (CallFetch u h) (calls w) -> u = target /\ h = viperProxyHeaders)
          /\ ((cacheable originalUrl = true -> c !! originalUrl = None) ->
              In (CallFetch target viperProxyHeaders) (calls w)))
  /\ transformUrl SimpleURL.parse (js "https://stormyclouds42.xyz/file2/seg.ts?x=1")
     = Normal (js "https://embed.su/api/proxy/viper/stormyclouds42.xyz/file2/seg.ts?x=1")
  /\ calls (serve (always (Normal (okResponse [] [])))
              (viper_proxy SimpleURL.parse (js "https://stormyclouds42.xyz/file2/seg.ts?x=1")) ∅)
     = [CallFetch (js "https://embed.su/api/proxy/viper/stormyclouds42.xyz/file2/seg.ts?x=1")
          viperProxyHeaders].
Proof.
  split; [|by vm_compute].
  intros new_URL originalUrl urlObj Hparse Hne target.
  assert (Ht : transformUrl new_URL originalUrl = Normal target)
    by (unfold transformUrl; by rewrite Hparse).
  split; [exact Ht|]. intros net c w. subst w. split.
  - intros u h. unfold_handler. rewrite Hne, Ht. run_handler; finish_handler.
  - unfold_handler. rewrite Hne, Ht. fold (cacheable originalUrl).
    destruct (cacheable originalUrl); intros Hmiss.
    + unfold_handler. rewrite (Hmiss eq_refl). run_handler; finish_handler.
    + run_handler; finish_handler.
Qed.

Lemma viper_fetch_target_witness :
  transformUrl SimpleURL.parse (js "https://cdn.example/a/seg.ts")
  = Normal (js "https://embed.su/api/proxy/viper/" ++ js "cdn.example" ++ js "/a/seg.ts" ++ []).
Proof.
  refine (proj1 (proj1 viper_fetch_target SimpleURL.parse (js "https://cdn.example/a/seg.ts")
                   {| protocol := js "https:"; host := js "cdn.example";
                      hostname := js "cdn.example"; pathname := js "/a/seg.ts";
                      search := [] |} _ _)).
  - vm_compute. reflexivity.
  - reflexivity.
Defined.

(** C5 (as stated, refuted).  The pass-through route does not parse the
    URL: for a URL that the parser rejects it calls [fetch] with that URL
    and, whatever the upstream does, never answers 400; when [fetch]
    rejects the URL the answer is 500. *)
Lemma proxy_stream_fetches_unparseable_url :
  SimpleURL.parse (js "not a url") = Throw (js "Invalid URL")
  /\ (forall (net : Network) (c : Cache),
        let w := serve net (proxy_stream (js "not a url")) c in
        calls w = [CallFetch (js "not a url") proxyStreamHeaders]
        /\ statusCode (res w) <> 400)
  /\ statusCode (res (serve (always (Throw (js "Only absolute URLs are supported")))
                        (proxy_stream (js "not a url")) ∅)) = 500.
Proof.
  split; [by vm_compute|]. split; [|by vm_compute].
  intros net c w. subst w. unfold_handler.
  change (JsString.falsy (js "not a url")) with false.
  change (JsString.endsWith (js "not a url") (js ".jpg")) with false.
  change (JsString.endsWith (js "not a url") (js ".html")) with false.
  change (JsString.endsWith (js "not a url") (js ".ts")) with false.
  change (JsString.endsWith (js "not a url") (js "m3u8")) with false.
  cbn [orb]. run_handler; done.
Qed.

(** C5 (amended).  The host-rewriting route answers a non-empty URL that
    does not parse with 400 and the message [Invalid URL format: ...],
    without touching the cache or the network.  The pass-through route
    never answers such a URL with 400: unless it is served from the cache
    the URL is handed to [fetch] as it is, and when [fetch] rejects it the
    answer is 500 with [Failed to proxy stream: ...].  An empty URL is
    answered with 400 on both routes. *)
Theorem unparseable_url_handling :
  (forall (new_URL : URLParser) (net : Network) (c : Cache) (url message : jsstring),
     JsString.falsy url = false ->
     new_URL url = Throw message ->
     serve net (viper_proxy new_URL url) c
       = {| cache := c;
            res := {| statusCode := 400; contentTypeHeader := None;
                      sent := SentJson (ErrorJson (js "Invalid URL format: " ++ message)) |};
            calls := [] |}
     /\ let w := serve net (proxy_stream url) c in
        statusCode (res w) <> 400
        /\ ((cacheable url = true -> c !! url = None) ->
            In (CallFetch url proxyStreamHeaders) (calls w)
            /\ forall m, net 0%nat url proxyStreamHeaders = Throw m ->
                 statusCode (res w) = 500
                 /\ sent (res w) = SentJson (ErrorJson (js "Failed to proxy stream: " ++ m))
                 /\ cache w = c))
  /\ (forall (new_URL : URLParser) (net : Network) (rt : route) (c : Cache),
        serve net (proxyHandler new_URL rt []) c
          = {| cache := c;
               res := {| statusCode := 400; contentTypeHeader := None;
                         sent := SentJson (ErrorJson (js "Stream URL is required")) |};
               calls := [] |}).
Proof.
  split; [|by intros new_URL net [] c].
  intros new_URL net c url message Hne Hparse. split.
  - unfold serve, viper_proxy, transformUrl. rewrite Hne, Hparse. done.
  - intros w. subst w. split.
    + run_handler; done.
    + unfold_handler. rewrite Hne, cacheable_stream_order.
      destruct (cacheable url); intros Hmiss.
      * unfold_handler. rewrite (Hmiss eq_refl). run_handler; finish_handler.
      * run_handler; finish_handler.
Qed.

Lemma unparseable_url_handling_witness :
  serve (always (Throw [])) (viper_proxy SimpleURL.parse (js "not a url")) ∅
  = {| cache := ∅;
       res := {| statusCode := 400; contentTypeHeader := None;
                 sent := SentJson (ErrorJson (js "Invalid URL format: " ++ js "Invalid URL")) |};
       calls := [] |}.
Proof.
  refine (proj1 (proj1 unparseable_url_handling SimpleURL.parse (always (Throw [])) ∅
                   (js "not a url") (js "Invalid URL") _ _)).
  - reflexivity.
  - vm_compute. reflexivity.
Defined.

(** ** Claims on the cache-clear handler *)

Section ClearCache.

Lemma strictNotEqual_spec (v : value) (o : option jsstring) :
  strictNotEqual v o = true <-> v <> envValue o.
Proof.
  destruct v as [|s|], o as [t|]; simpl; try done.
  rewrite negb_true_iff, bool_decide_eq_false. split; congruence.
Qed.

Lemma keys_length (c : Cache) : length (map_to_list c).*1 = size c.
Proof. by rewrite length_fmap, length_map_to_list. Qed.

End ClearCache.

(** C3 (as stated, refuted).  With the admin secret configured as
    [s3cret], the token [admin-token] does not match the secret, yet the
    request is not answered with 403: the cache is emptied and the count
    reported. *)
Lemma clear_cache_accepts_builtin_token :
  let c : Cache := {[ js "https://cdn.example/a.ts" :=
                        {| data := [Byte.x47]; contentType := None |} ]} in
  let w := serve (always (Throw []))
             (clear_cache (Some (js "s3cret")) (VString (js "admin-token"))) c in
  VString (js "admin-token") <> envValue (Some (js "s3cret"))
  /\ statusCode (res w) = 200
  /\ cache w = ∅
  /\ sent (res w) = SentJson (SuccessJson (js "Cache cleared. 1 TS segments removed.")).
Proof. by vm_compute. Qed.

(** C3 (amended).  The cache-clear operation answers 403 [Unauthorized] if
    and only if the token differs both from the configured admin secret and
    from the built-in token [admin-token].  A rejected request leaves every
    cache entry in place and makes no call on the cache; an accepted one
    empties the cache and reports the number of entries it held. *)
Theorem clear_cache_authorization :
  forall (net : Network) (ADMIN_TOKEN : option jsstring) (token : value) (c : Cache),
    let w := serve net (clear_cache ADMIN_TOKEN token) c in
    let rejected := token <> envValue ADMIN_TOKEN /\ token <> VString (js "admin-token") in
    (statusCode (res w) = 403 <-> rejected)
    /\ (rejected ->
        sent (res w) = SentJson (ErrorJson (js "Unauthorized"))
        /\ cache w = c /\ calls w = [])
    /\ (~ rejected ->
        statusCode (res w) = 200
        /\ cache w = ∅
        /\ sent (res w) =
             SentJson (SuccessJson (js "Cache cleared. " ++ JsString.of_nat (size c)
                                      ++ js " TS segments removed."))).
Proof.
  intros net ADMIN_TOKEN token c w rejected. subst w rejected.
  rewrite <- (strictNotEqual_spec token ADMIN_TOKEN).
  rewrite <- (strictNotEqual_spec token (Some (js "admin-token"))).
  rewrite <- andb_true_iff.
  unfold_handler.
  destruct (strictNotEqual token ADMIN_TOKEN && strictNotEqual token _);
    unfold_handler; rewrite ?keys_length; split_and!; try done.
  all: intros H; by destruct H.
Qed.

Lemma clear_cache_authorization_witness :
  let c : Cache := {[ js "https://cdn.example/a.ts" :=
                        {| data := [Byte.x47]; contentType := None |} ]} in
  let w := serve (always (Throw []))
             (clear_cache (Some (js "s3cret")) (VString (js "guess"))) c in
  sent (res w) = SentJson (ErrorJson (js "Unauthorized")) /\ cache w = c /\ calls w = [].
Proof.
  refine (proj1 (proj2 (clear_cache_authorization (always (Throw [])) (Some (js "s3cret"))
                          (VString (js "guess"))
                          {[ js "https://cdn.example/a.ts" :=
                               {| data := [Byte.x47]; contentType := None |} ]})) _).
  split; intros H; vm_compute in H; discriminate H.
Defined.

(** * Further properties *)

(** ** The matcher on the context pattern *)

Section ContextPattern.

Implicit Types (s w l t : jsstring) (c : N) (prev : option N) (k : cont).

Lemma endsWith_suffix s w : JsString.endsWith s w = true <-> w `suffix_of` s.
Proof.
  unfold JsString.endsWith. split.
  - intros H. apply startsWith_inv in H. exists (rev (drop (length (rev w)) (rev s))).
    rewrite <- (rev_involutive w) at 2. rewrite <- rev_app_distr, <- H.
    by rewrite rev_involutive.
  - intros [u ->]. rewrite rev_app_distr. apply startsWith_app.
Qed.

Lemma endsWith_cons c l w :
  JsString.endsWith (c :: l) w = JsString.endsWith l w || bool_decide (c :: l = w).
Proof.
  apply eq_true_iff_eq. rewrite orb_true_iff, bool_decide_eq_true, !endsWith_suffix.
  split.
  - destruct w as [|d w]; [left; apply suffix_nil|].
    intros [->|H]%suffix_cons_inv; [by right|by left].
  - intros [H| <-]; [by apply suffix_cons_r|done].
Qed.

Lemma extensionLine_cons w c l :
  extensionLine w (c :: l) = JsString.endsWith l w.
Proof.
  unfold extensionLine. rewrite endsWith_cons.
  destruct (JsString.endsWith l w) eqn:E.
  - apply endsWith_suffix, suffix_length in E.
    rewrite orb_true_l, andb_true_r. apply Nat.ltb_lt. simpl. lia.
  - rewrite orb_false_l. case_bool_decide as Hw; [|by rewrite andb_false_r].
    subst w. by rewrite Nat.ltb_irrefl.
Qed.

Lemma firstLine_nil_afterLine s : firstLine s = [] -> afterLine s = s.
Proof.
  destruct s as [|c s]; [done|]. simpl. by destruct (isLineTerminator c).
Qed.

Lemma prevAfter_nonempty prev w : w <> [] -> prevAfter prev w = prevAfter None w.
Proof. unfold prevAfter. destruct w as [|c w]; [done|]. rewrite last_cons.
  by destruct (last w). Qed.

(** A literal followed by [$]: it matches exactly when the literal is all
    that is left of the line. *)
Lemma run_lit_eol w prev t :
  noTerminator w = true ->
  run (lit w) (prev, t) (fun z => run Eol z Some) =
    if bool_decide (firstLine t = w) then Some (prevAfter prev w, afterLine t) else None.
Proof.
  intros Hw. rewrite run_lit.
  destruct (JsString.startsWith t w) eqn:E.
  - apply startsWith_inv in E. set (d := drop (length w) t) in *.
    destruct (firstLine_of_line w d Hw) as [Hf Ha]. rewrite <- E in Hf, Ha.
    rewrite Hf, Ha.
    destruct d as [|c d'] eqn:Ed; cbn [run snd firstLine afterLine].
    + rewrite app_nil_r. by rewrite bool_decide_eq_true_2.
    + destruct (isLineTerminator c).
      * rewrite app_nil_r. by rewrite bool_decide_eq_true_2.
      * rewrite bool_decide_eq_false_2; [done|].
        intros H. apply (f_equal length) in H. rewrite length_app in H. simpl in H. lia.
  - rewrite bool_decide_eq_false_2; [done|].
    intros H. rewrite <- (firstLine_afterLine t), H, startsWith_app in E. done.
Qed.

(** Greedy [.*] in front of a literal and [$]: backtracking finds the
    literal at the end of the line, or nothing. *)
Lemma repeat_dot_lit_eol w s : forall fuel prev,
  noTerminator w = true -> w <> [] ->
  (length s <= fuel)%nat ->
  repeat (run Dot) fuel (prev, s) (fun y => run (lit w) y (fun z => run Eol z Some))
    = if JsString.endsWith (firstLine s) w
      then Some (prevAfter None w, afterLine s) else None.
Proof.
  induction s as [|c s IH]; intros fuel prev Hw Hne Hfuel.
  - cbn [firstLine afterLine].
    assert (JsString.endsWith [] w = false) as ->.
    { apply not_true_is_false. rewrite endsWith_suffix. by intros ->%suffix_nil_inv. }
    destruct fuel; cbn [repeat run snd]; rewrite run_lit_eol by done;
      by rewrite bool_decide_eq_false_2.
  - cbn [firstLine afterLine].
    destruct (isLineTerminator c) eqn:E.
    + assert (JsString.endsWith [] w = false) as ->.
      { apply not_true_is_false. rewrite endsWith_suffix. by intros ->%suffix_nil_inv. }
      destruct fuel; cbn [repeat run snd]; rewrite ?E, run_lit_eol by done;
        cbn [firstLine]; rewrite E; by rewrite bool_decide_eq_false_2.
    + destruct fuel as [|fuel]; [simpl in Hfuel; lia|].
      cbn [repeat run snd]. rewrite E.
      replace (length s =? length (c :: s))%nat with false
        by (symmetry; apply Nat.eqb_neq; simpl; lia).
      rewrite IH by (done || simpl in Hfuel; lia).
      rewrite endsWith_cons.
      destruct (JsString.endsWith (firstLine s) w); [done|].
      rewrite run_lit_eol by done. cbn [firstLine afterLine orb]. rewrite E.
      by rewrite (prevAfter_nonempty prev w Hne).
Qed.

(** [.+] in front of a literal and [$]. *)
Lemma run_plus_dot_lit_eol w prev s :
  noTerminator w = true -> w <> [] ->
  run (Seq (Plus Dot) (lit w)) (prev, s) (fun z => run Eol z Some)
    = if extensionLine w (firstLine s)
      then Some (prevAfter None w, afterLine s) else None.
Proof.
  intros Hw Hne. cbn [run snd].
  destruct s as [|c s]; [done|]. cbn [firstLine afterLine].
  destruct (isLineTerminator c); [done|].
  rewrite repeat_dot_lit_eol by done. by rewrite extensionLine_cons.
Qed.

Lemma exec_contextPattern_start prev s :
  lineStart prev = true ->
  exec contextPattern (prev, s) =
    if negb (JsString.startsWith (firstLine s) (js "#")) && extensionLine (js ".ts") (firstLine s)
    then Some (prevAfter None (js ".ts"), afterLine s)
    else if extensionLine (js ".m3u8") (firstLine s)
    then Some (prevAfter None (js ".m3u8"), afterLine s)
    else if extensionLine (js ".jpg") (firstLine s)
    then Some (prevAfter None (js ".jpg"), afterLine s)
    else if extensionLine (js ".html") (firstLine s)
    then Some (prevAfter None (js ".html"), afterLine s)
    else None.
Proof.
  intros Hprev.
  assert (Hbol : forall k, run Bol (prev, s) k = k (prev, s)).
  { intros k. cbn [run fst]. destruct prev as [p|]; [|done]. simpl in Hprev. by rewrite Hprev. }
  unfold exec, contextPattern.
  change (run (Seq Bol ?r) ?x ?k) with (run Bol x (fun y => run r y k)).
  rewrite Hbol.
  change (run (Seq (Group (Alt ?a (Alt ?b (Alt ?c ?d)))) Eol) ?x Some)
    with (match run a x (fun z => run Eol z Some) with
          | Some z => Some z
          | None =>
              match run b x (fun z => run Eol z Some) with
              | Some z => Some z
              | None =>
                  match run c x (fun z => run Eol z Some) with
                  | Some z => Some z
                  | None => run d x (fun z => run Eol z Some)
                  end
              end
          end).
  rewrite !run_plus_dot_lit_eol by done.
  change (run (Seq (NegLookahead (Chr 35)) ?r) ?x ?k)
    with (match run (Chr 35) x Some with Some _ => None | None => run r x k end).
  rewrite run_plus_dot_lit_eol by done.
  assert (Hhash : run (Chr 35) (prev, s) Some
                  = if JsString.startsWith (firstLine s) (js "#")
                    then Some (Some 35, drop 1 s) else None).
  { cbn [run snd]. destruct s as [|c s]; [done|]. cbn [firstLine].
    destruct (35 =? c) eqn:E.
    - apply N.eqb_eq in E as <-. done.
    - destruct (isLineTerminator c); [done|].
      change (js "#") with [35]. cbn [JsString.startsWith]. by rewrite E. }
  rewrite Hhash.
  destruct (JsString.startsWith (firstLine s) (js "#")); cbn [negb andb];
    repeat (destruct (extensionLine _ (firstLine s)); try done).
Qed.

End ContextPattern.

(** ** Global replacement with a pattern that matches whole lines *)

Section LineScan.

Variable r : regex.
Variable P : jsstring -> bool.
Variable cb : jsstring -> jsstring.

Hypothesis Hmatch : forall prev s,
  lineStart prev = true -> P (firstLine s) = true ->
  exists q, exec r (prev, s) = Some (q, afterLine s).
Hypothesis Hfail : forall prev s,
  lineStart prev && P (firstLine s) = false -> exec r (prev, s) = None.
Hypothesis Hempty : P [] = false.

Implicit Types (s l : jsstring) (c : N) (prev : option N).

Lemma line_scan_copy s : forall p,
  isLineTerminator p = false ->
  scan r cb (Some p) s 0 = firstLine s ++ resume r cb s.
Proof.
  induction s as [|c s IH]; intros p Hp.
  - rewrite scan_unfold, Hfail; [done|]. cbn [lineStart]. by rewrite Hp.
  - rewrite scan_unfold, Hfail by (cbn [lineStart]; by rewrite Hp).
    cbn [firstLine]. unfold resume. cbn [afterLine].
    destruct (isLineTerminator c) eqn:E; [done|].
    rewrite (IH c E). done.
Qed.

Lemma line_scan_start prev s :
  lineStart prev = true ->
  scan r cb prev s 0 =
    (if P (firstLine s) then cb (firstLine s) else firstLine s) ++ resume r cb s.
Proof.
  intros Hprev. rewrite scan_unfold.
  destruct (P (firstLine s)) eqn:HP.
  - destruct (Hmatch prev s Hprev HP) as [q ->]. cbn [snd]. cbv zeta.
    assert (Hlen : (length s - length (afterLine s))%nat = length (firstLine s))
      by (rewrite (afterLine_length s); lia).
    rewrite Hlen.
    assert (Htake : take (length (firstLine s)) s = firstLine s).
    { rewrite <- (firstLine_afterLine s) at 2. by rewrite take_app_length. }
    rewrite Htake. f_equal.
    set (rest := resume r cb s).
    pose proof (firstLine_no_terminator s) as Hno.
    pose proof (firstLine_afterLine s) as Hsplit.
    destruct (firstLine s) as [|c l] eqn:Hl; [congruence|].
    rewrite <- Hsplit. cbn [app length Nat.eqb Nat.sub].
    rewrite Nat.sub_0_r, scan_skip.
    simpl in Hno. apply andb_prop in Hno as [Hc Hno]. apply negb_true_iff in Hc.
    destruct (prevAfter_no_terminator l c Hc Hno) as (x & -> & Hx).
    rewrite (line_scan_copy _ x Hx).
    destruct (firstLine_afterLine_idem s) as [-> Hidem].
    unfold rest, resume. by rewrite Hidem.
  - rewrite Hfail by (by rewrite HP, andb_false_r).
    destruct s as [|c s]; [done|].
    cbn [firstLine]. unfold resume. cbn [afterLine].
    destruct (isLineTerminator c) eqn:E; [done|].
    rewrite (line_scan_copy s c E). done.
Qed.

Lemma line_scan_by_line s : forall prev,
  lineStart prev = true ->
  scan r cb prev s 0 =
    joinLines (mapLines (fun l => if P l then cb l else l) (splitLines s)).
Proof.
  induction s as [s IH] using (induction_ltof1 _ (@length N)); unfold ltof in IH.
  intros prev Hprev.
  rewrite (line_scan_start prev s Hprev), splitLines_unfold.
  unfold joinLines, mapLines, resume. cbn [fst snd]. f_equal.
  pose proof (afterLine_length s) as Hlen.
  destruct (afterLine s) as [|c s'] eqn:E; [done|].
  apply afterLine_terminator in E.
  rewrite (IH s' ltac:(simpl in Hlen; lia) (Some c) E).
  cbn [fmap list_fmap flat_map]. unfold joinLines, mapLines. done.
Qed.

End LineScan.

(** ** The context-aware rewriter, line by line *)

Section ContextByLine.

Variable new_URL : URLParser.
Variable originalUrl : jsstring.

Implicit Types (s l line content : jsstring) (c : N).

Lemma matchesContext_nil : matchesContext [] = false.
Proof. done. Qed.

Lemma exec_contextPattern_match prev s :
  lineStart prev = true -> matchesContext (firstLine s) = true ->
  exists q, exec contextPattern (prev, s) = Some (q, afterLine s).
Proof.
  intros Hprev Hm. rewrite (exec_contextPattern_start prev s Hprev).
  unfold matchesContext in Hm.
  repeat match goal with
    | |- context [if ?b then _ else _] => destruct b; [by eexists|]
    end.
  done.
Qed.

Lemma exec_contextPattern_fail prev s :
  lineStart prev && matchesContext (firstLine s) = false ->
  exec contextPattern (prev, s) = None.
Proof.
  destruct (lineStart prev) eqn:Hprev.
  - cbn [andb]. intros Hm. rewrite (exec_contextPattern_start prev s Hprev).
    unfold matchesContext in Hm.
    repeat match goal with
      | |- context [if ?b then _ else _] => destruct b; [done|]
      end.
    done.
  - intros _. unfold exec, contextPattern. cbn [run fst].
    destruct prev as [p|]; [|done]. simpl in Hprev. by rewrite Hprev.
Qed.

Lemma rewriteM3u8Content_callback content :
  rewriteM3u8Content new_URL content originalUrl
  = replace contextPattern (contextCallback new_URL originalUrl) content.
Proof. reflexivity. Qed.

Lemma rewriteContext_by_line content :
  rewriteM3u8Content new_URL content originalUrl
  = rewriteContextByLine new_URL content originalUrl.
Proof.
  rewrite rewriteM3u8Content_callback. unfold replace, rewriteContextByLine.
  rewrite (line_scan_by_line contextPattern matchesContext); try done.
  - apply exec_contextPattern_match.
  - apply exec_contextPattern_fail.
Qed.

End ContextByLine.

(** ** Paths *)

Section Paths.

Implicit Types (p d f : jsstring) (c : N).

Lemma split_nonempty sep p : JsString.split sep p <> [].
Proof.
  destruct p as [|c p]; [done|]. simpl.
  destruct (c =? sep); [done|]. by destruct (JsString.split sep p).
Qed.

Lemma split_segment f : noSlash f = true -> JsString.split 47 f = [f].
Proof.
  induction f as [|c f IH]; [done|]. unfold noSlash. simpl.
  intros [Hc Hf]%andb_prop. apply negb_true_iff in Hc. rewrite Hc.
  by rewrite (IH Hf).
Qed.

Lemma split_last_segment d f :
  noSlash f = true ->
  JsString.split 47 (d ++ 47 :: f) = JsString.split 47 d ++ [f].
Proof.
  intros Hf. induction d as [|c d IH]; simpl.
  - by rewrite (split_segment f Hf).
  - rewrite IH. destruct (c =? 47); [done|].
    pose proof (split_nonempty 47 d). by destruct (JsString.split 47 d).
Qed.

Lemma join_split d : JsString.join (js "/") (JsString.split 47 d) = d.
Proof.
  induction d as [|c d IH]; [done|]. simpl.
  pose proof (split_nonempty 47 d) as Hne.
  destruct (c =? 47) eqn:E.
  - apply N.eqb_eq in E as ->.
    destruct (JsString.split 47 d) as [|h t]; [done|].
    change (JsString.join (js "/") ([] :: h :: t))
      with (47 :: JsString.join (js "/") (h :: t)).
    by rewrite IH.
  - destruct (JsString.split 47 d) as [|h t]; [done|].
    rewrite <- IH. by destruct t.
Qed.

(** The directory of a path: what precedes its last slash. *)
Lemma basePath_of_directory d f :
  noSlash f = true ->
  JsString.join (js "/") (removelast (JsString.split 47 (d ++ 47 :: f))) = d.
Proof.
  intros Hf. by rewrite split_last_segment, removelast_last, join_split.
Qed.

Lemma basePath_of_segment f :
  noSlash f = true ->
  JsString.join (js "/") (removelast (JsString.split 47 f)) = [].
Proof. intros Hf. by rewrite split_segment. Qed.

Lemma last_slash p :
  noSlash p = true \/ exists d f, p = d ++ 47 :: f /\ noSlash f = true.
Proof.
  induction p as [|c p IH]; [by left|].
  destruct IH as [Hp|(d & f & -> & Hf)].
  - destruct (c =? 47) eqn:E.
    + apply N.eqb_eq in E as ->. right. by exists [], p.
    + left. unfold noSlash in *. simpl. by rewrite E, Hp.
  - right. by exists (c :: d), f.
Qed.

Lemma basePath_noTerminator p :
  noTerminator p = true ->
  noTerminator (JsString.join (js "/") (removelast (JsString.split 47 p))) = true.
Proof.
  intros Hp. destruct (last_slash p) as [Hs|(d & f & -> & Hf)].
  - by rewrite basePath_of_segment.
  - rewrite basePath_of_directory by done.
    unfold noTerminator in *. rewrite forallb_app in Hp.
    by apply andb_prop in Hp as [Hd _].
Qed.

End Paths.

(** ** Properties of the context-aware rewriter *)

Section ContextLines.

Variable new_URL : URLParser.
Variable originalUrl : jsstring.

Implicit Types (line content : jsstring).

Lemma noTerminator_app (a b : jsstring) :
  noTerminator (a ++ b) = noTerminator a && noTerminator b.
Proof. apply forallb_app. Qed.

Lemma baseUrlOf_noTerminator :
  (forall u, new_URL originalUrl = Normal u -> urlClean u = true) ->
  noTerminator (baseUrlOf new_URL originalUrl) = true.
Proof.
  intros Hclean. unfold baseUrlOf.
  destruct (new_URL originalUrl) as [u|m]; [|done].
  specialize (Hclean u eq_refl). unfold urlClean in Hclean.
  apply andb_prop in Hclean as [[Hp Hh]%andb_prop Hpath].
  cbv zeta. rewrite !noTerminator_app, Hp, Hh, (basePath_noTerminator _ Hpath). done.
Qed.

Lemma contextLine_noTerminator line :
  (forall u, new_URL originalUrl = Normal u -> urlClean u = true) ->
  noTerminator line = true ->
  noTerminator (contextLine new_URL originalUrl line) = true.
Proof.
  intros Hclean Hline. unfold contextLine, contextCallback.
  destruct (matchesContext line); [|done].
  destruct (JsString.startsWith line (js "http")).
  { by rewrite noTerminator_app, Hline. }
  destruct (JsString.startsWith line (js "/")).
  - destruct (new_URL originalUrl) as [u|m] eqn:E; [|done].
    specialize (Hclean u eq_refl). unfold urlClean in Hclean.
    apply andb_prop in Hclean as [[Hp Hh]%andb_prop Hpath].
    by rewrite !noTerminator_app, Hp, Hh, Hline.
  - by rewrite !noTerminator_app, (baseUrlOf_noTerminator Hclean), Hline.
Qed.

(** The lines of the rewritten text are the rewritten lines. *)
Lemma linesOf_rewriteContext content :
  (forall u, new_URL originalUrl = Normal u -> urlClean u = true) ->
  linesOf (rewriteM3u8Content new_URL content originalUrl)
  = contextLine new_URL originalUrl <$> linesOf content.
Proof.
  intros Hclean. rewrite rewriteContext_by_line. unfold rewriteContextByLine, linesOf.
  rewrite splitLines_joinLines
    by (apply mapLines_wf; [intros l; by apply contextLine_noTerminator|apply splitLines_wf]).
  unfold mapLines. cbn [fst snd fmap list_fmap]. f_equal.
  rewrite <- !list_fmap_compose. by apply list_fmap_ext; intros _ [c l] _.
Qed.

End ContextLines.

(** The context-aware rewriter is the per-line function: for every text,
    parser and original URL it replaces exactly the lines that
    [matchesContext] accepts, by what the callback makes of them, and copies
    every other line and every line terminator. *)
Theorem contextual_rewriter_by_line :
  forall (new_URL : URLParser) (content originalUrl : jsstring),
    rewriteM3u8Content new_URL content originalUrl
    = joinLines (mapLines
                   (fun line =>
                      if matchesContext line
                      then contextCallback new_URL originalUrl line
                      else line)
                   (splitLines content)).
Proof. intros. apply rewriteContext_by_line. Qed.

(** A line that the context pattern does not match (no [.m3u8], [.jpg] or
    [.html] extension, and no [.ts] extension or a leading [#]; an
    extension alone is not enough) comes out as it went in. *)
Theorem contextual_rewriter_keeps_unmatched_lines :
  forall (new_URL : URLParser) (content originalUrl : jsstring) (i : nat) (line : jsstring),
    (forall u, new_URL originalUrl = Normal u -> urlClean u = true) ->
    linesOf content !! i = Some line ->
    matchesContext line = false ->
    linesOf (rewriteM3u8Content new_URL content originalUrl) !! i = Some line.
Proof.
  intros new_URL content originalUrl i line Hclean Hi Hm.
  rewrite linesOf_rewriteContext, list_lookup_fmap, Hi by done.
  cbn [fmap option_fmap option_map]. unfold contextLine. by rewrite Hm.
Qed.

Lemma contextual_rewriter_keeps_unmatched_lines_witness :
  linesOf (rewriteM3u8Content SimpleURL.parse
             (js "#EXTINF:10, intro.ts" ++ [13; 10] ++ js "seg.ts")
             (js "https://cdn.example/a/b/c.m3u8")) !! 0%nat
  = Some (js "#EXTINF:10, intro.ts").
Proof.
  apply (contextual_rewriter_keeps_unmatched_lines SimpleURL.parse
           (js "#EXTINF:10, intro.ts" ++ [13; 10] ++ js "seg.ts")
           (js "https://cdn.example/a/b/c.m3u8") 0%nat (js "#EXTINF:10, intro.ts")).
  - intros u H. vm_compute in H. injection H as <-. vm_compute. reflexivity.
  - vm_compute. reflexivity.
  - vm_compute. reflexivity.
Defined.

(** With an original URL that parses and whose path is [dir/file], a
    matched line is replaced by [/proxy-stream/] followed by its absolute
    form: the line itself when it begins with [http], scheme and host in
    front of it when it begins with [/], and scheme, host and [dir/] in
    front of it otherwise. *)
Theorem contextual_rewriter_resolves_lines :
  forall (new_URL : URLParser) (content originalUrl : jsstring) (u : URL)
         (dir file : jsstring) (i : nat) (line : jsstring),
    new_URL originalUrl = Normal u ->
    urlClean u = true ->
    pathname u = dir ++ js "/" ++ file ->
    noSlash file = true ->
    linesOf content !! i = Some line ->
    matchesContext line = true ->
    linesOf (rewriteM3u8Content new_URL content originalUrl) !! i
    = Some (js "/proxy-stream/" ++
            (if JsString.startsWith line (js "http") then line
             else if JsString.startsWith line (js "/")
                  then protocol u ++ js "//" ++ host u ++ line
                  else protocol u ++ js "//" ++ host u ++ dir ++ js "/" ++ line)).
Proof.
  intros new_URL content originalUrl u dir file i line Hu Hclean Hpath Hfile Hi Hm.
  rewrite linesOf_rewriteContext, list_lookup_fmap, Hi
    by (intros u' Hu'; congruence).
  cbn [fmap option_fmap option_map]. unfold contextLine, contextCallback, baseUrlOf.
  change (dir ++ js "/" ++ file) with (dir ++ 47 :: file) in Hpath.
  rewrite Hm, Hu, Hpath. cbv zeta.
  rewrite (basePath_of_directory dir file Hfile).
  repeat (destruct (JsString.startsWith line _)); try done.
  by rewrite <- !app_assoc.
Qed.

Lemma contextual_rewriter_resolves_lines_witness :
  linesOf (rewriteM3u8Content SimpleURL.parse
             (js "#EXTM3U" ++ [10] ++ js "seg.ts")
             (js "https://cdn.example/a/b/c.m3u8")) !! 1%nat
  = Some (js "/proxy-stream/" ++
          (js "https:" ++ js "//" ++ js "cdn.example" ++ js "/a/b" ++ js "/" ++ js "seg.ts")).
Proof.
  apply (contextual_rewriter_resolves_lines SimpleURL.parse
           (js "#EXTM3U" ++ [10] ++ js "seg.ts")
           (js "https://cdn.example/a/b/c.m3u8")
           {| protocol := js "https:"; host := js "cdn.example";
              hostname := js "cdn.example"; pathname := js "/a/b/c.m3u8"; search := [] |}
           (js "/a/b") (js "c.m3u8") 1%nat (js "seg.ts")).
  all: vm_compute; reflexivity.
Defined.

(** With an original URL that does not parse the rewrite still goes
    through: a matched line that begins with [/] is kept, every other
    matched line gets [/proxy-stream/] in front of it, with no base. *)
Theorem contextual_rewriter_without_base :
  forall (new_URL : URLParser) (content originalUrl message : jsstring),
    new_URL originalUrl = Throw message ->
    linesOf (rewriteM3u8Content new_URL content originalUrl)
    = (fun line =>
         if matchesContext line && negb (JsString.startsWith line (js "/"))
         then js "/proxy-stream/" ++ line else line) <$> linesOf content.
Proof.
  intros new_URL content originalUrl message Hu.
  rewrite linesOf_rewriteContext by (intros u' Hu'; congruence).
  apply list_fmap_ext. intros _ line _.
  unfold contextLine, contextCallback, baseUrlOf. rewrite Hu.
  destruct (matchesContext line); [|done]. cbn [andb].
  destruct (JsString.startsWith line (js "http")) eqn:Eh.
  - assert (JsString.startsWith line (js "/") = false) as ->; [|done].
    destruct line as [|c line]; [done|].
    change (js "http") with (104 :: js "ttp") in Eh. cbn [JsString.startsWith] in Eh.
    apply andb_prop in Eh as [Ec _]. apply N.eqb_eq in Ec as <-. done.
  - by destruct (JsString.startsWith line (js "/")).
Qed.

Lemma contextual_rewriter_without_base_witness :
  linesOf (rewriteM3u8Content SimpleURL.parse
             (js "/abs/seg.ts" ++ [10] ++ js "https://cdn.example/a.ts") (js "not a url"))
  = (fun line =>
       if matchesContext line && negb (JsString.startsWith line (js "/"))
       then js "/proxy-stream/" ++ line else line)
    <$> linesOf (js "/abs/seg.ts" ++ [10] ++ js "https://cdn.example/a.ts").
Proof.
  apply (contextual_rewriter_without_base SimpleURL.parse
           (js "/abs/seg.ts" ++ [10] ++ js "https://cdn.example/a.ts")
           (js "not a url") (js "Invalid URL")).
  vm_compute. reflexivity.
Defined.

(** ** Properties of the direct rewriter *)

Section DirectLines.

Implicit Types (line content : jsstring).

Lemma prefixHttpsLine_not_https line :
  JsString.startsWith (prefixHttpsLine line) (js "https://") = false.
Proof.
  unfold prefixHttpsLine.
  by destruct (JsString.startsWith line (js "https://")) eqn:E.
Qed.

Lemma prefixHttpsLine_idempotent line :
  prefixHttpsLine (prefixHttpsLine line) = prefixHttpsLine line.
Proof.
  unfold prefixHttpsLine at 1. by rewrite prefixHttpsLine_not_https.
Qed.

Lemma splitLines_rewriteDirect content :
  splitLines (rewriteM3u8ContentDirect content)
  = mapLines prefixHttpsLine (splitLines content).
Proof.
  rewrite rewriteDirect_by_line. unfold rewriteDirectByLine.
  apply splitLines_joinLines, mapLines_wf;
    [apply prefixHttpsLine_noTerminator|apply splitLines_wf].
Qed.

End DirectLines.

(** Rewriting an already rewritten manifest in direct mode changes
    nothing. *)
Theorem direct_rewriter_idempotent :
  forall content : jsstring,
    rewriteM3u8ContentDirect (rewriteM3u8ContentDirect content)
    = rewriteM3u8ContentDirect content.
Proof.
  intros content.
  rewrite (rewriteDirect_by_line (rewriteM3u8ContentDirect content)).
  unfold rewriteDirectByLine. rewrite splitLines_rewriteDirect.
  rewrite rewriteDirect_by_line. unfold rewriteDirectByLine. f_equal.
  unfold mapLines. cbn [fst snd]. rewrite prefixHttpsLine_idempotent. f_equal.
  rewrite <- list_fmap_compose. apply list_fmap_ext. intros _ [c l] _.
  cbn. by rewrite prefixHttpsLine_idempotent.
Qed.

(** After one pass of the direct rewriter no line begins with [https://]. *)
Theorem direct_rewriter_leaves_no_https_line :
  forall content : jsstring,
    Forall (fun line => JsString.startsWith line (js "https://") = false)
      (linesOf (rewriteM3u8ContentDirect content)).
Proof.
  intros content. rewrite linesOf_rewriteDirect. apply Forall_fmap, Forall_true.
  intros line. apply prefixHttpsLine_not_https.
Qed.

(** A line that does not begin with [https://] (a directive, a comment, an
    empty line, a relative reference, a URL with another scheme) comes out
    of the direct rewriter as it went in. *)
Theorem direct_rewriter_keeps_other_lines :
  forall (content : jsstring) (i : nat) (line : jsstring),
    linesOf content !! i = Some line ->
    JsString.startsWith line (js "https://") = false ->
    linesOf (rewriteM3u8ContentDirect content) !! i = Some line.
Proof.
  intros content i line Hi Hline.
  rewrite linesOf_rewriteDirect, list_lookup_fmap, Hi.
  cbn [fmap option_fmap option_map]. unfold prefixHttpsLine. by rewrite Hline.
Qed.

Lemma direct_rewriter_keeps_other_lines_witness :
  linesOf (rewriteM3u8ContentDirect
             (js "#EXTM3U" ++ [10] ++ js "https://cdn.example/a.ts" ++ [10]
                ++ js "http://cdn.example/b.ts")) !! 2%nat
  = Some (js "http://cdn.example/b.ts").
Proof.
  apply (direct_rewriter_keeps_other_lines
           (js "#EXTM3U" ++ [10] ++ js "https://cdn.example/a.ts" ++ [10]
              ++ js "http://cdn.example/b.ts") 2%nat (js "http://cdn.example/b.ts")).
  - vm_compute. reflexivity.
  - vm_compute. reflexivity.
Defined.

(** The direct rewriter keeps the line structure: the same line
    terminators in the same order (a CR LF stays a CR LF) and the same
    number of lines. *)
Theorem direct_rewriter_keeps_line_structure :
  forall content : jsstring,
    terminatorsOf (rewriteM3u8ContentDirect content) = terminatorsOf content
    /\ length (linesOf (rewriteM3u8ContentDirect content)) = length (linesOf content).
Proof.
  intros content. split.
  - unfold terminatorsOf. rewrite splitLines_rewriteDirect. unfold mapLines. cbn [snd].
    rewrite <- list_fmap_compose. by apply list_fmap_ext; intros _ [c l] _.
  - by rewrite linesOf_rewriteDirect, length_fmap.
Qed.

(** ** Properties of the proxy handlers *)

(** Two recorded outcomes of the same call are the same outcome. *)
Ltac same_outcome :=
  repeat match goal with
    | H1 : ?x = Normal ?a, H2 : ?x = Normal ?b |- _ =>
        assert (a = b) by congruence; subst; clear H2
    | H : header_content_type _ = _ |- _ => rewrite H in *; clear H
    end.

Section ProxyFacts.

Variable new_URL : URLParser.

Implicit Types (net : Network) (rt : route) (c : Cache) (url : jsstring).

Lemma cacheable_not_manifest url :
  cacheable url = true -> JsString.endsWith url (js "m3u8") = false.
Proof.
  unfold cacheable, JsString.endsWith. destruct (rev url) as [|a l]; [done|].
  change (rev (js "m3u8")) with [56; 117; 51; 109].
  cbn [JsString.startsWith]. destruct (56 =? a) eqn:E; [|done].
  apply N.eqb_eq in E as <-. done.
Qed.

(** A cacheable URL with an entry under it: the entry is served. *)
Lemma serve_hit net rt c url entry target :
  fetchTarget new_URL rt url = Normal target ->
  cacheable url = true ->
  c !! url = Some entry ->
  serve net (proxyHandler new_URL rt url) c
  = {| cache := c;
       res := {| statusCode := 200;
                 contentTypeHeader := truthyString (contentType entry);
                 sent := SentBuffer (data entry) |};
       calls := [CallGet url] |}.
Proof.
  intros Htarget Hc Hentry.
  pose proof (cacheable_not_empty url Hc) as Hne.
  destruct rt; cbn [fetchTarget] in Htarget; unfold_handler.
  - rewrite Hne, cacheable_stream_order, Hc. unfold_handler. rewrite Hentry.
    unfold truthyString. run_handler; done.
  - rewrite Hne, Htarget. fold (cacheable url). rewrite Hc. unfold_handler.
    rewrite Hentry. unfold truthyString. run_handler; done.
Qed.

(** A request that stores an entry: it was a miss on a cacheable URL, and
    what was sent is what was stored. *)
Lemma serve_store net rt c url key entry :
  In (CallSet key entry) (calls (serve net (proxyHandler new_URL rt url) c)) ->
  key = url
  /\ cacheable url = true
  /\ serve net (proxyHandler new_URL rt url) c
     = {| cache := <[url := entry]> c;
          res := {| statusCode := 200;
                    contentTypeHeader := truthyString (contentType entry);
                    sent := SentBuffer (data entry) |};
          calls := calls (serve net (proxyHandler new_URL rt url) c) |}.
Proof.
  destruct rt; unfold_handler; rewrite ?cacheable_stream_order; fold (cacheable url);
    run_handler; intros Hin; finish_handler;
    repeat match goal with
      | H : header_content_type _ = _ |- _ => rewrite H
      end;
    reflexivity.
Qed.

Lemma serve_cache_effect net rt c url :
  let w := serve net (proxyHandler new_URL rt url) c in
  cache w = c \/ exists entry, cache w = <[url := entry]> c.
Proof. intros w. subst w. destruct rt; run_handler; eauto. Qed.

End ProxyFacts.

(** A segment stored by one request is replayed by the next request for the
    same URL, on either route: the response (status, Content-Type, body) is
    the one of the storing request, the cache is only read, and no fetch is
    made, whatever the upstream would answer. *)
Theorem stored_segment_is_replayed :
  forall (new_URL : URLParser) (net1 net2 : Network) (rt1 rt2 : route) (c : Cache)
         (url key target : jsstring) (entry : CacheEntry),
    let w1 := serve net1 (proxyHandler new_URL rt1 url) c in
    In (CallSet key entry) (calls w1) ->
    fetchTarget new_URL rt2 url = Normal target ->
    let w2 := serve net2 (proxyHandler new_URL rt2 url) (cache w1) in
    calls w2 = [CallGet url] /\ res w2 = res w1 /\ cache w2 = cache w1.
Proof.
  intros new_URL net1 net2 rt1 rt2 c url key target entry w1 Hin Htarget w2.
  subst w1 w2.
  destruct (serve_store new_URL net1 rt1 c url key entry Hin) as (-> & Hc & Hw).
  rewrite Hw. cbn [cache res].
  rewrite (serve_hit new_URL net2 rt2 _ url entry target Htarget Hc)
    by apply lookup_insert_eq.
  done.
Qed.

Lemma stored_segment_is_replayed_witness :
  let net1 := always (Normal (okResponse [Byte.x47] [])) in
  let net2 := always (Throw (js "offline")) in
  let url := js "https://cdn.example/seg.ts" in
  let w1 := serve net1 (proxyHandler SimpleURL.parse ViperProxy url) ∅ in
  let w2 := serve net2 (proxyHandler SimpleURL.parse ProxyStream url) (cache w1) in
  calls w2 = [CallGet url] /\ res w2 = res w1 /\ cache w2 = cache w1.
Proof.
  apply (stored_segment_is_replayed SimpleURL.parse
           (always (Normal (okResponse [Byte.x47] []))) (always (Throw (js "offline")))
           ViperProxy ProxyStream ∅ (js "https://cdn.example/seg.ts")
           (js "https://cdn.example/seg.ts") (js "https://cdn.example/seg.ts")
           {| data := [Byte.x47]; contentType := Some (js "video/mp2t") |}).
  - vm_compute. right. right. left. reflexivity.
  - reflexivity.
Defined.

(** A request makes its calls in a fixed order and at most once each: a
    cache lookup under the URL, then a fetch, then a cache store under the
    URL.  It makes at most one fetch. *)
Theorem request_call_sequence :
  forall (new_URL : URLParser) (net : Network) (rt : route) (c : Cache) (url : jsstring),
    let w := serve net (proxyHandler new_URL rt url) c in
    (calls w = []
     \/ calls w = [CallGet url]
     \/ exists target headers,
          calls w = [CallFetch target headers]
          \/ calls w = [CallGet url; CallFetch target headers]
          \/ exists entry,
               calls w = [CallGet url; CallFetch target headers; CallSet url entry])
    /\ (fetchCount (calls w) <= 1)%nat.
Proof.
  intros new_URL net rt c url w. subst w.
  destruct rt; run_handler; (split; [eauto 10|lia]).
Qed.

(** A request never removes a cache entry and never touches the entry of
    another URL. *)
Theorem request_keeps_other_entries :
  forall (new_URL : URLParser) (net : Network) (rt : route) (c : Cache)
         (url key : jsstring),
    let w := serve net (proxyHandler new_URL rt url) c in
    (is_Some (c !! key) -> is_Some (cache w !! key))
    /\ (key <> url -> cache w !! key = c !! key).
Proof.
  intros new_URL net rt c url key w. subst w.
  destruct (serve_cache_effect new_URL net rt c url) as [->|[entry ->]]; [done|].
  split.
  - intros H. rewrite lookup_insert_is_Some. destruct (decide (url = key)); auto.
  - intros H. by rewrite lookup_insert_ne.
Qed.

Lemma request_keeps_other_entries_witness :
  let other := js "https://cdn.example/old.ts" in
  let c : Cache := {[ other := {| data := []; contentType := None |} ]} in
  let w := serve (always (Normal (okResponse [Byte.x47] [])))
             (proxyHandler SimpleURL.parse ProxyStream (js "https://cdn.example/new.ts")) c in
  cache w !! other = c !! other.
Proof.
  refine (proj2 (request_keeps_other_entries SimpleURL.parse
                   (always (Normal (okResponse [Byte.x47] []))) ProxyStream
                   {[ js "https://cdn.example/old.ts" := {| data := []; contentType := None |} ]}
                   (js "https://cdn.example/new.ts") (js "https://cdn.example/old.ts")) _).
  intros H. vm_compute in H. discriminate H.
Defined.

(** When [fetch] itself rejects (a network failure), the response on
    either route is a 500 whose message is [Failed to proxy stream: ]
    followed by the error's message; no Content-Type is set, the cache is
    left as it was and nothing is stored. *)
Theorem rejected_fetch_gives_500 :
  forall (new_URL : URLParser) (net : Network) (rt : route) (c : Cache)
         (url u message : jsstring) (h : Headers),
    let w := serve net (proxyHandler new_URL rt url) c in
    In (CallFetch u h) (calls w) ->
    net 0%nat u h = Throw message ->
    res w = {| statusCode := 500; contentTypeHeader := None;
               sent := SentJson (ErrorJson (js "Failed to proxy stream: " ++ message)) |}
    /\ cache w = c
    /\ forallb (fun call => negb (isSet call)) (calls w) = true.
Proof.
  intros new_URL net rt c url u message h w Hin Hnet. subst w.
  destruct rt; run_handler; finish_handler.
Qed.

Lemma rejected_fetch_gives_500_witness :
  let w := serve (always (Throw (js "socket hang up")))
             (proxyHandler SimpleURL.parse ProxyStream (js "https://cdn.example/seg.ts")) ∅ in
  res w = {| statusCode := 500; contentTypeHeader := None;
             sent := SentJson (ErrorJson (js "Failed to proxy stream: " ++ js "socket hang up")) |}
  /\ cache w = ∅
  /\ forallb (fun call => negb (isSet call)) (calls w) = true.
Proof.
  apply (rejected_fetch_gives_500 SimpleURL.parse (always (Throw (js "socket hang up")))
           ProxyStream ∅ (js "https://cdn.example/seg.ts") (js "https://cdn.example/seg.ts")
           (js "socket hang up") proxyStreamHeaders).
  - vm_compute. right. left. reflexivity.
  - reflexivity.
Defined.

(** When the fetch succeeds but reading the body fails (the text of a
    manifest, the buffer of a cacheable URL), the response is a 500 with
    the error's message and nothing is stored: the cache never holds a
    partial entry. *)
Theorem failed_body_read_gives_500 :
  forall (new_URL : URLParser) (net : Network) (rt : route) (c : Cache)
         (url u message : jsstring) (h : Headers) (r : Response),
    let w := serve net (proxyHandler new_URL rt url) c in
    In (CallFetch u h) (calls w) ->
    net 0%nat u h = Normal r ->
    ok r = true ->
    (JsString.endsWith url (js "m3u8") = true /\ text r = Throw message)
    \/ (cacheable url = true /\ buffer r = Throw message) ->
    statusCode (res w) = 500
    /\ sent (res w) = SentJson (ErrorJson (js "Failed to proxy stream: " ++ message))
    /\ cache w = c
    /\ forallb (fun call => negb (isSet call)) (calls w) = true.
Proof.
  intros new_URL net rt c url u message h r w Hin Hnet Hok Hbody. subst w.
  assert (Hcases : (JsString.endsWith url (js "m3u8") = true /\ text r = Throw message)
                   \/ (JsString.endsWith url (js "m3u8") = false /\ cacheable url = true
                       /\ buffer r = Throw message)).
  { destruct Hbody as [H|[Hc Hb]]; [by left|right].
    by rewrite (cacheable_not_manifest url Hc). }
  clear Hbody. revert Hin.
  destruct rt; unfold_handler; rewrite ?cacheable_stream_order; fold (cacheable url);
    run_handler; intros Hin; finish_handler.
Qed.

Lemma failed_body_read_gives_500_witness :
  let r := {| status := 200; statusText := js "OK"; header_content_type := None;
              text := Throw (js "aborted"); buffer := Throw (js "aborted") |} in
  let w := serve (always (Normal r))
             (proxyHandler SimpleURL.parse ProxyStream (js "https://cdn.example/seg.ts")) ∅ in
  statusCode (res w) = 500
  /\ sent (res w) = SentJson (ErrorJson (js "Failed to proxy stream: " ++ js "aborted"))
  /\ cache w = ∅
  /\ forallb (fun call => negb (isSet call)) (calls w) = true.
Proof.
  apply (failed_body_read_gives_500 SimpleURL.parse
           (always (Normal {| status := 200; statusText := js "OK";
                              header_content_type := None;
                              text := Throw (js "aborted");
                              buffer := Throw (js "aborted") |}))
           ProxyStream ∅ (js "https://cdn.example/seg.ts") (js "https://cdn.example/seg.ts")
           (js "aborted") proxyStreamHeaders
           {| status := 200; statusText := js "OK"; header_content_type := None;
              text := Throw (js "aborted"); buffer := Throw (js "aborted") |}).
  - vm_compute. right. left. reflexivity.
  - reflexivity.
  - reflexivity.
  - right. split; reflexivity.
Defined.

(** A miss on a cacheable URL whose fetch and body read succeed: the body
    is sent with status 200, and the cache gets one entry under the
    client-supplied URL that holds the body and the upstream's
    content-type (as received, also when it is absent). *)
Theorem cacheable_miss_stores_body :
  forall (new_URL : URLParser) (net : Network) (rt : route) (c : Cache)
         (url u : jsstring) (h : Headers) (r : Response) (body : Buffer),
    let w := serve net (proxyHandler new_URL rt url) c in
    let entry := {| data := body; contentType := header_content_type r |} in
    In (CallFetch u h) (calls w) ->
    net 0%nat u h = Normal r ->
    ok r = true ->
    cacheable url = true ->
    buffer r = Normal body ->
    res w = {| statusCode := 200;
               contentTypeHeader := truthyString (header_content_type r);
               sent := SentBuffer body |}
    /\ cache w = <[url := entry]> c
    /\ calls w = [CallGet url; CallFetch u h; CallSet url entry].
Proof.
  intros new_URL net rt c url u h r body w entry Hin Hnet Hok Hc Hbody. subst w entry.
  pose proof (cacheable_not_manifest url Hc) as Hm. revert Hin.
  destruct rt; unfold_handler; rewrite ?cacheable_stream_order; fold (cacheable url);
    run_handler; intros Hin; finish_handler; same_outcome; reflexivity.
Qed.

Lemma cacheable_miss_stores_body_witness :
  let url := js "https://cdn.example/seg.ts" in
  let r := okResponse [Byte.x47] [] in
  let w := serve (always (Normal r)) (proxyHandler SimpleURL.parse ProxyStream url) ∅ in
  let entry := {| data := [Byte.x47]; contentType := header_content_type r |} in
  res w = {| statusCode := 200;
             contentTypeHeader := truthyString (header_content_type r);
             sent := SentBuffer [Byte.x47] |}
  /\ cache w = <[url := entry]> ∅
  /\ calls w = [CallGet url; CallFetch url proxyStreamHeaders; CallSet url entry].
Proof.
  apply (cacheable_miss_stores_body SimpleURL.parse (always (Normal (okResponse [Byte.x47] [])))
           ProxyStream ∅ (js "https://cdn.example/seg.ts") (js "https://cdn.example/seg.ts")
           proxyStreamHeaders (okResponse [Byte.x47] []) [Byte.x47]).
  - vm_compute. right. left. reflexivity.
  - reflexivity.
  - reflexivity.
  - vm_compute. reflexivity.
  - reflexivity.
Defined.

(** Content that is neither a manifest nor cacheable is piped from the
    upstream response with status 200: the cache is neither read nor
    written and the only call is the fetch. *)
Theorem other_content_is_piped :
  forall (new_URL : URLParser) (net : Network) (rt : route) (c : Cache)
         (url u : jsstring) (h : Headers) (r : Response),
    let w := serve net (proxyHandler new_URL rt url) c in
    In (CallFetch u h) (calls w) ->
    net 0%nat u h = Normal r ->
    ok r = true ->
    JsString.endsWith url (js "m3u8") = false ->
    cacheable url = false ->
    res w = {| statusCode := 200;
               contentTypeHeader := truthyString (header_content_type r);
               sent := SentPipe r |}
    /\ cache w = c
    /\ calls w = [CallFetch u h].
Proof.
  intros new_URL net rt c url u h r w Hin Hnet Hok Hm Hc. subst w. revert Hin.
  destruct rt; unfold_handler; rewrite ?cacheable_stream_order; fold (cacheable url);
    run_handler; intros Hin; finish_handler; same_outcome; reflexivity.
Qed.

Lemma other_content_is_piped_witness :
  let url := js "https://cdn.example/live.mp4" in
  let r := okResponse [] [] in
  let w := serve (always (Normal r)) (proxyHandler SimpleURL.parse ProxyStream url) ∅ in
  res w = {| statusCode := 200;
             contentTypeHeader := truthyString (header_content_type r);
             sent := SentPipe r |}
  /\ cache w = ∅
  /\ calls w = [CallFetch url proxyStreamHeaders].
Proof.
  apply (other_content_is_piped SimpleURL.parse (always (Normal (okResponse [] [])))
           ProxyStream ∅ (js "https://cdn.example/live.mp4") (js "https://cdn.example/live.mp4")
           proxyStreamHeaders (okResponse [] [])).
  - vm_compute. left. reflexivity.
  - reflexivity.
  - reflexivity.
  - vm_compute. reflexivity.
  - vm_compute. reflexivity.
Defined.

(** After a fetch that succeeded, the Content-Type of the response is the
    upstream's content-type when that is a non-empty string, and is not set
    otherwise; this holds for manifests, cached segments and piped content
    alike, also when reading the body fails afterwards. *)
Theorem content_type_mirrors_upstream :
  forall (new_URL : URLParser) (net : Network) (rt : route) (c : Cache)
         (url u : jsstring) (h : Headers) (r : Response),
    let w := serve net (proxyHandler new_URL rt url) c in
    In (CallFetch u h) (calls w) ->
    net 0%nat u h = Normal r ->
    ok r = true ->
    contentTypeHeader (res w) = truthyString (header_content_type r).
Proof.
  intros new_URL net rt c url u h r w Hin Hnet Hok. subst w. revert Hin.
  destruct rt; run_handler; intros Hin; finish_handler; same_outcome; reflexivity.
Qed.

Lemma content_type_mirrors_upstream_witness :
  let r := okResponse [] (js "#EXTM3U") in
  let w := serve (always (Normal r))
             (proxyHandler SimpleURL.parse ViperProxy (js "https://cdn.example/i.m3u8")) ∅ in
  contentTypeHeader (res w) = truthyString (header_content_type r).
Proof.
  apply (content_type_mirrors_upstream SimpleURL.parse
           (always (Normal (okResponse [] (js "#EXTM3U")))) ViperProxy ∅
           (js "https://cdn.example/i.m3u8")
           (js "https://embed.su/api/proxy/viper/cdn.example/i.m3u8")
           viperProxyHeaders (okResponse [] (js "#EXTM3U"))).
  - vm_compute. left. reflexivity.
  - reflexivity.
  - reflexivity.
Defined.

(** A proxy request is answered with 400 exactly when the URL is empty or,
    on the host-rewriting route, does not parse; such a request makes no
    call on the cache or the network. *)
Theorem bad_request_conditions :
  forall (new_URL : URLParser) (net : Network) (rt : route) (c : Cache) (url : jsstring),
    let w := serve net (proxyHandler new_URL rt url) c in
    (statusCode (res w) = 400
     <-> url = [] \/ (rt = ViperProxy /\ exists message, new_URL url = Throw message))
    /\ (statusCode (res w) = 400 -> calls w = [] /\ cache w = c).
Proof.
  intros new_URL net rt c url w. subst w.
  destruct rt; unfold_handler; unfold transformUrl.
  - destruct url as [|x url]; cbn [JsString.falsy].
    + unfold_handler. split; [|done]. split; [by left|done].
    + run_handler; (split; [split; [done|]|done]);
        intros [H|[H _]]; discriminate H.
  - destruct url as [|x url]; cbn [JsString.falsy].
    + unfold_handler. split; [|done]. split; [by left|done].
    + destruct (new_URL (x :: url)) as [urlObj|message] eqn:Hparse.
      * run_handler; (split; [split; [done|]|done]);
          intros [H|[_ [m H]]]; discriminate H.
      * unfold_handler. split; [|done]. split; [|done].
        intros _. right. split; [done|by exists message].
Qed.

Lemma bad_request_conditions_witness :
  let w := serve (always (Throw [])) (proxyHandler SimpleURL.parse ViperProxy (js "not a url")) ∅ in
  calls w = [] /\ cache w = ∅.
Proof.
  refine (proj2 (bad_request_conditions SimpleURL.parse (always (Throw [])) ViperProxy ∅
                   (js "not a url")) _).
  vm_compute. reflexivity.
Defined.

(** After an accepted cache-clear, the next proxy request for a URL that
    the route accepts is never served from the cache: it performs the
    fetch. *)
Theorem cleared_cache_forces_fetch :
  forall (new_URL : URLParser) (net0 net : Network) (ADMIN_TOKEN : option jsstring)
         (token : value) (c : Cache) (rt : route) (url target : jsstring),
    let w0 := serve net0 (clear_cache ADMIN_TOKEN token) c in
    statusCode (res w0) = 200 ->
    JsString.falsy url = false ->
    fetchTarget new_URL rt url = Normal target ->
    let w := serve net (proxyHandler new_URL rt url) (cache w0) in
    cache w0 = ∅
    /\ exists headers, In (CallFetch target headers) (calls w).
Proof.
  intros new_URL net0 net ADMIN_TOKEN token c rt url target w0 Hok Hne Htarget w.
  subst w0 w.
  assert (Hempty : cache (serve net0 (clear_cache ADMIN_TOKEN token) c) = ∅).
  { revert Hok. unfold_handler.
    destruct (strictNotEqual token ADMIN_TOKEN && strictNotEqual token _);
      unfold_handler; [discriminate|done]. }
  rewrite Hempty. split; [done|].
  destruct rt; cbn [fetchTarget] in Htarget; unfold_handler;
    rewrite Hne, ?Htarget; simplify_eq.
  - exists proxyStreamHeaders. run_handler; rewrite ?lookup_empty in *; finish_handler.
  - exists viperProxyHeaders. run_handler; rewrite ?lookup_empty in *; finish_handler.
Qed.

Lemma cleared_cache_forces_fetch_witness :
  let url := js "https://cdn.example/seg.ts" in
  let c : Cache := {[ url := {| data := [Byte.x47]; contentType := None |} ]} in
  let w0 := serve (always (Throw [])) (clear_cache None (VString (js "admin-token"))) c in
  let w := serve (always (Throw [])) (proxyHandler SimpleURL.parse ProxyStream url) (cache w0) in
  cache w0 = ∅ /\ exists headers, In (CallFetch url headers) (calls w).
Proof.
  apply (cleared_cache_forces_fetch SimpleURL.parse (always (Throw [])) (always (Throw []))
           None (VString (js "admin-token"))
           {[ js "https://cdn.example/seg.ts" := {| data := [Byte.x47]; contentType := None |} ]}
           ProxyStream (js "https://cdn.example/seg.ts") (js "https://cdn.example/seg.ts")).
  - vm_compute. reflexivity.
  - reflexivity.
  - reflexivity.
Defined.

(** A cache-clear request without a token is accepted exactly when no admin
    secret is configured, and a token that is not a string (null, a number,
    an object) is rejected whatever the secret. *)
Theorem clear_cache_missing_or_odd_token :
  forall (net : Network) (ADMIN_TOKEN : option jsstring) (c : Cache),
    (statusCode (res (serve net (clear_cache ADMIN_TOKEN VUndefined) c)) = 403
     <-> is_Some ADMIN_TOKEN)
    /\ (ADMIN_TOKEN = None -> cache (serve net (clear_cache ADMIN_TOKEN VUndefined) c) = ∅)
    /\ serve net (clear_cache ADMIN_TOKEN VOther) c
       = {| cache := c;
            res := {| statusCode := 403; contentTypeHeader := None;
                      sent := SentJson (ErrorJson (js "Unauthorized")) |};
            calls := [] |}.
Proof.
  intros net ADMIN_TOKEN c. split; [|split].
  - destruct ADMIN_TOKEN as [s|]; unfold_handler.
    + split; [by eexists|done].
    + split; [discriminate|]. by intros [? ?].
  - intros ->. by unfold_handler.
  - by destruct ADMIN_TOKEN.
Qed.

Lemma clear_cache_missing_or_odd_token_witness :
  cache (serve (always (Throw [])) (clear_cache None VUndefined)
           {[ js "https://cdn.example/seg.ts" := {| data := []; contentType := None |} ]}) = ∅.
Proof.
  refine (proj1 (proj2 (clear_cache_missing_or_odd_token (always (Throw [])) None
                          {[ js "https://cdn.example/seg.ts" :=
                               {| data := []; contentType := None |} ]})) _).
  reflexivity.
Defined.
